(** * Health-record interoperability protocol: the three Clarity contracts

    A shallow embedding of the on-chain core of the repository:

    - [ProviderVerification]: [src/contracts/provider-verification.clar]
      (the Credential Registry);
    - [AuditTrail]: the audit-trail contract of [src/unnamed/part_009]
      (the Audit Log);
    - [AccessControl]: the access-control contract (the Consent & Grant
      Ledger).  The repository holds two revisions of it: the current one,
      listed in [src/contracts/README.md] after the directory's read-me text
      (it has the consent entry points and the constants that the
      repository's tests and documents name), and an earlier one in
      [src/unnamed/part_008].  They differ only in [grant-access] (two more
      assertions in the current revision) and in the consent entry points
      (absent from the earlier one); [revoke-access], [has-access],
      [use-access], [get-access-grant] and [has-record-scope-access] are the
      same text in both.  Both [grant-access] bodies are embedded below, and
      a transaction runs against either revision.

    Both revisions reach the registry with
    [(contract-call? PROVIDER-VERIFICATION-CONTRACT ..)], where
    [PROVIDER-VERIFICATION-CONTRACT] is the name of a [define-constant].
    [contract-call?] dispatches on a contract literal or on a trait
    reference; the name of a constant is neither, and evaluating the call
    raises the runtime error of the VM for a callee that is not a contract
    name.  The embedding keeps the callee as the source writes it, so
    [grant-access] aborts on its first expression and [use-access] aborts
    once [has-access] has passed.

    Clarity values are modelled as the contracts use them: [uint] as [N] with
    the 128-bit overflow check of the VM, [string-ascii] as [string], lists as
    [list], [optional] as [option], tuples as records, data maps as [gmap].
    A public function runs in a small state monad with early return; the
    wrapper [define_public] performs the roll-back the VM applies when a
    public function returns [(err ..)] or aborts. *)

From stdpp Require Import gmap strings list fin_maps.
From Stdlib Require Import NArith Lia.

Local Open Scope N_scope.

(** ** Principals *)

(** A principal is either a standard (user) address or a contract
    identifier [deployer.name]. *)
Inductive principal :=
| StandardPrincipal (addr : string)
| ContractPrincipal (issuer : string) (name : string).

#[global] Instance principal_eq_dec : EqDecision principal.
Proof. solve_decision. Defined.

Definition principal_encode (p : principal) : string + string * string :=
  match p with
  | StandardPrincipal a => inl a
  | ContractPrincipal d n => inr (d, n)
  end.

Definition principal_decode (x : string + string * string) : principal :=
  match x with
  | inl a => StandardPrincipal a
  | inr (d, n) => ContractPrincipal d n
  end.

#[global] Instance principal_countable : Countable principal.
Proof.
  apply (inj_countable' principal_encode principal_decode).
  by intros [].
Defined.

(** ** Execution context and the Clarity evaluation monad *)

(** The context of one call: [tx-sender], [contract-caller] and
    [stacks-block-height]. *)
Record env := mkEnv {
  tx_sender : principal;
  contract_caller : principal;
  stacks_block_height : N
}.

(** A response value: [(ok b)] or [(err code)]. *)
Inductive response :=
| ROk (b : bool)
| RErr (code : N).

Definition is_ok (r : response) : bool :=
  match r with ROk _ => true | RErr _ => false end.

(** The outcome of evaluating an expression inside a function body: a value,
    an early return of [(err code)] ([asserts!], [unwrap!], [try!]), or a
    runtime abort ([unwrap-panic], arithmetic overflow, a [contract-call?]
    whose callee cannot be dispatched). *)
Inductive outcome (A : Type) :=
| Val (a : A)
| Bail (code : N)
| Panic.
Arguments Val {A} a.
Arguments Bail {A} code.
Arguments Panic {A}.

Definition clar (S A : Type) : Type := S -> outcome A * S.

Definition ret {S A} (a : A) : clar S A := fun s => (Val a, s).

Definition bind {S A B} (m : clar S A) (k : A -> clar S B) : clar S B :=
  fun s =>
    match m s with
    | (Val a, s') => k a s'
    | (Bail e, s') => (Bail e, s')
    | (Panic, s') => (Panic, s')
    end.

Declare Scope clar_scope.
Delimit Scope clar_scope with clar.
Notation "x <- m ;; k" := (bind m (fun x => k))
  (at level 100, m at next level, right associativity) : clar_scope.
Notation "m ;; k" := (bind m (fun _ => k))
  (at level 100, right associativity) : clar_scope.
Open Scope clar_scope.

Definition get_store {S} : clar S S := fun s => (Val s, s).
(** A read-only function, run on the current state. *)
Definition read_only {S A} (f : S -> A) : clar S A := fun s => (Val (f s), s).
Definition put_store {S} (s' : S) : clar S unit := fun _ => (Val tt, s').
Definition bail {S A} (e : N) : clar S A := fun s => (Bail e, s).
Definition panic {S A} : clar S A := fun s => (Panic, s).

(** [(asserts! c (err e))] *)
Definition asserts {S} (c : bool) (e : N) : clar S unit :=
  if c then ret tt else bail e.

(** [(unwrap! o (err e))] *)
Definition unwrap {S A} (o : option A) (e : N) : clar S A :=
  match o with Some a => ret a | None => bail e end.

(** [(unwrap-panic o)] *)
Definition unwrap_panic {S A} (o : option A) : clar S A :=
  match o with Some a => ret a | None => panic end.

(** [(try! r)] on a response *)
Definition try {S} (r : response) : clar S bool :=
  match r with ROk b => ret b | RErr e => bail e end.

(** [uint] is an unsigned 128-bit integer; [+] and [-] abort the transaction
    on overflow and underflow. *)
Definition UINT_MAX : N := 2 ^ 128 - 1.

Definition uint_add {S} (a b : N) : clar S N :=
  if a + b <=? UINT_MAX then ret (a + b) else panic.

Definition uint_sub {S} (a b : N) : clar S N :=
  if b <=? a then ret (a - b) else panic.

(** A public function commits its writes only when it returns [(ok ..)];
    on [(err ..)], whether returned early or as the final value, and on a
    runtime abort, the writes of the call are discarded. *)
Definition define_public {S} (body : clar S response) : clar S response :=
  fun s =>
    match body s with
    | (Val (ROk b), s') => (Val (ROk b), s')
    | (Val (RErr e), _) => (Val (RErr e), s)
    | (Bail e, _) => (Val (RErr e), s)
    | (Panic, _) => (Panic, s)
    end.

(** [(index-of l x)]: position of the first occurrence. *)
Fixpoint index_of (l : list string) (x : string) : option N :=
  match l with
  | [] => None
  | y :: l' => if String.eqb y x then Some 0
               else option_map N.succ (index_of l' x)
  end.

Definition len_str (s : string) : N := N.of_nat (String.length s).
Definition len_list {A} (l : list A) : N := N.of_nat (length l).

(** ** The Credential Registry: provider-verification.clar *)

Module ProviderVerification.

Definition ERR_NOT_AUTHORIZED : N := 300.
Definition ERR_PROVIDER_NOT_FOUND : N := 301.
Definition ERR_INVALID_CREDENTIALS : N := 302.
Definition ERR_CREDENTIALS_EXPIRED : N := 303.
Definition ERR_PROVIDER_SUSPENDED : N := 304.
Definition ERR_INVALID_CREDENTIAL_TYPE : N := 305.
Definition ERR_PROVIDER_ALREADY_EXISTS : N := 306.
Definition ERR_INVALID_EXPIRY_DATE : N := 307.

Definition MAX_CREDENTIAL_TYPES : N := 10.
Definition MIN_CREDENTIAL_VALIDITY_BLOCKS : N := 144.

Record credentials := mkCredentials {
  license_number : string;
  credential_types : list string;
  issued_at : N;
  expires_at : N;
  issuing_authority : string;
  verification_status : string;
  last_verified : N;
  suspension_reason : option string
}.

Record verification := mkVerification {
  verified_by : principal;
  verification_date : N;
  credential_hash : string;
  verification_result : string;
  notes : option string
}.

Record credential_type_info := mkCredentialTypeInfo {
  description : string;
  required_for_access : bool;
  created_at : N
}.

Record status_info := mkStatusInfo {
  registration_date : N;
  last_activity : N;
  access_count : N;
  status : string;
  updated_by : principal
}.

(** The five data maps of the contract. *)
Record store := mkStore {
  provider_credentials : gmap principal credentials;
  verification_history : gmap (principal * string) verification;
  valid_credential_types : gmap string credential_type_info;
  credential_verifications : gmap (principal * string) verification;
  provider_status : gmap principal status_info
}.

Definition empty_store : store := mkStore ∅ ∅ ∅ ∅ ∅.

Definition set_provider_credentials (p : principal) (c : credentials)
    : clar store unit :=
  fun s => (Val tt,
    mkStore (<[p := c]> (provider_credentials s)) (verification_history s)
            (valid_credential_types s) (credential_verifications s)
            (provider_status s)).

Definition set_credential_verifications (k : principal * string)
    (v : verification) : clar store unit :=
  fun s => (Val tt,
    mkStore (provider_credentials s) (verification_history s)
            (valid_credential_types s)
            (<[k := v]> (credential_verifications s)) (provider_status s)).

Definition set_provider_status (p : principal) (st : status_info)
    : clar store unit :=
  fun s => (Val tt,
    mkStore (provider_credentials s) (verification_history s)
            (valid_credential_types s) (credential_verifications s)
            (<[p := st]> (provider_status s))).

Definition set_valid_credential_types (t : string)
    (i : credential_type_info) : clar store unit :=
  fun s => (Val tt,
    mkStore (provider_credentials s) (verification_history s)
            (<[t := i]> (valid_credential_types s))
            (credential_verifications s) (provider_status s)).

Section Contract.
(** The address that deployed the contracts: [CONTRACT-OWNER] is the
    [tx-sender] of the deployment, and [.access-control] is the contract
    of that name issued by the same address. *)
Variable deployer : string.

Definition CONTRACT_OWNER : principal := StandardPrincipal deployer.
Definition ACCESS_CONTROL : principal :=
  ContractPrincipal deployer "access-control".

Definition generate_verification_id (provider : principal) : string :=
  "verification-id".

Definition is_valid_credential_type (s : store) (credential_type : string)
    : bool :=
  bool_decide (is_Some (valid_credential_types s !! credential_type)).

Definition validate_credential_types (s : store) (types : list string)
    : bool :=
  len_list types =? len_list (List.filter (is_valid_credential_type s) types).

Definition register_provider (e : env) (provider : principal)
    (license_number : string) (credential_types : list string)
    (expires_at : N) (issuing_authority : string)
    (credential_hash : string) : clar store response :=
  define_public (
    asserts (bool_decide (tx_sender e = CONTRACT_OWNER)) ERR_NOT_AUTHORIZED ;;
    s <- get_store ;;
    asserts (bool_decide (provider_credentials s !! provider = None))
            ERR_PROVIDER_ALREADY_EXISTS ;;
    asserts (stacks_block_height e <? expires_at) ERR_INVALID_EXPIRY_DATE ;;
    lim <- uint_add (stacks_block_height e) MIN_CREDENTIAL_VALIDITY_BLOCKS ;;
    asserts (lim <? expires_at) ERR_INVALID_EXPIRY_DATE ;;
    asserts (validate_credential_types s credential_types)
            ERR_INVALID_CREDENTIAL_TYPE ;;
    asserts (0 <? len_str credential_hash) ERR_INVALID_CREDENTIALS ;;
    set_provider_credentials provider
      (mkCredentials license_number credential_types
         (stacks_block_height e) expires_at issuing_authority
         "verified" (stacks_block_height e) None) ;;
    set_credential_verifications
      (provider, generate_verification_id provider)
      (mkVerification (tx_sender e) (stacks_block_height e)
         credential_hash "verified" None) ;;
    set_provider_status provider
      (mkStatusInfo (stacks_block_height e) (stacks_block_height e) 0
         "active" (tx_sender e)) ;;
    ret (ROk true)).

Definition verify_provider (e : env) (s : store) (provider : principal)
    : response :=
  match provider_credentials s !! provider with
  | Some creds =>
      match provider_status s !! provider with
      | Some stat =>
          if String.eqb (verification_status creds) "verified"
             && (stacks_block_height e <? expires_at creds)
             && String.eqb (status stat) "active"
          then ROk true
          else if expires_at creds <? stacks_block_height e
               then RErr ERR_CREDENTIALS_EXPIRED
               else if negb (String.eqb (status stat) "active")
                    then RErr ERR_PROVIDER_SUSPENDED
                    else RErr ERR_INVALID_CREDENTIALS
      | None => RErr ERR_PROVIDER_NOT_FOUND
      end
  | None => RErr ERR_PROVIDER_NOT_FOUND
  end.

Definition update_provider_credentials (e : env) (provider : principal)
    (new_expires_at : N) (new_credential_types : list string)
    : clar store response :=
  define_public (
    asserts (bool_decide (tx_sender e = CONTRACT_OWNER)) ERR_NOT_AUTHORIZED ;;
    s <- get_store ;;
    asserts (bool_decide (is_Some (provider_credentials s !! provider)))
            ERR_PROVIDER_NOT_FOUND ;;
    asserts (stacks_block_height e <? new_expires_at)
            ERR_INVALID_EXPIRY_DATE ;;
    asserts (validate_credential_types s new_credential_types)
            ERR_INVALID_CREDENTIAL_TYPE ;;
    c <- unwrap_panic (provider_credentials s !! provider) ;;
    set_provider_credentials provider
      (mkCredentials (license_number c) new_credential_types
         (issued_at c) new_expires_at (issuing_authority c)
         (verification_status c) (stacks_block_height e)
         (suspension_reason c)) ;;
    ret (ROk true)).

Definition suspend_provider (e : env) (provider : principal)
    (reason : string) : clar store response :=
  define_public (
    asserts (bool_decide (tx_sender e = CONTRACT_OWNER)) ERR_NOT_AUTHORIZED ;;
    s <- get_store ;;
    asserts (bool_decide (is_Some (provider_status s !! provider)))
            ERR_PROVIDER_NOT_FOUND ;;
    st <- unwrap_panic (provider_status s !! provider) ;;
    set_provider_status provider
      (mkStatusInfo (registration_date st) (last_activity st)
         (access_count st) "suspended" (tx_sender e)) ;;
    s1 <- get_store ;;
    c <- unwrap_panic (provider_credentials s1 !! provider) ;;
    set_provider_credentials provider
      (mkCredentials (license_number c) (credential_types c)
         (issued_at c) (expires_at c) (issuing_authority c)
         (verification_status c) (last_verified c) (Some reason)) ;;
    ret (ROk true)).

Definition reactivate_provider (e : env) (provider : principal)
    : clar store response :=
  define_public (
    asserts (bool_decide (tx_sender e = CONTRACT_OWNER)) ERR_NOT_AUTHORIZED ;;
    s <- get_store ;;
    st <- unwrap (provider_status s !! provider) ERR_PROVIDER_NOT_FOUND ;;
    asserts (String.eqb (status st) "suspended") ERR_INVALID_CREDENTIALS ;;
    set_provider_status provider
      (mkStatusInfo (registration_date st) (last_activity st)
         (access_count st) "active" (tx_sender e)) ;;
    s1 <- get_store ;;
    c <- unwrap_panic (provider_credentials s1 !! provider) ;;
    set_provider_credentials provider
      (mkCredentials (license_number c) (credential_types c)
         (issued_at c) (expires_at c) (issuing_authority c)
         (verification_status c) (last_verified c) None) ;;
    ret (ROk true)).

Definition get_provider_credentials (s : store) (provider : principal)
    : option credentials :=
  provider_credentials s !! provider.

Definition get_provider_status (s : store) (provider : principal)
    : option status_info :=
  provider_status s !! provider.

Definition add_credential_type (e : env) (credential_type : string)
    (description : string) (required_for_access : bool)
    : clar store response :=
  define_public (
    asserts (bool_decide (tx_sender e = CONTRACT_OWNER)) ERR_NOT_AUTHORIZED ;;
    set_valid_credential_types credential_type
      (mkCredentialTypeInfo description required_for_access
         (stacks_block_height e)) ;;
    ret (ROk true)).

Definition record_provider_activity (e : env) (provider : principal)
    : clar store response :=
  define_public (
    asserts (bool_decide (contract_caller e = ACCESS_CONTROL))
            ERR_NOT_AUTHORIZED ;;
    s <- get_store ;;
    match provider_status s !! provider with
    | Some st =>
        n <- uint_add (access_count st) 1 ;;
        set_provider_status provider
          (mkStatusInfo (registration_date st) (stacks_block_height e)
             n (status st) (updated_by st)) ;;
        ret (ROk true)
    | None => ret (RErr ERR_PROVIDER_NOT_FOUND)
    end).

Definition has_credential_type (s : store) (provider : principal)
    (credential_type : string) : response :=
  match provider_credentials s !! provider with
  | Some creds =>
      ROk (bool_decide
             (is_Some (index_of (credential_types creds) credential_type)))
  | None => RErr ERR_PROVIDER_NOT_FOUND
  end.
End Contract.

End ProviderVerification.

(** ** The Audit Log: audit-trail contract (src/unnamed/part_009) *)

Module AuditTrail.

Definition ERR_INVALID_EVENT : N := 200.
Definition ERR_UNAUTHORIZED_LOGGER : N := 201.
Definition ERR_EVENT_NOT_FOUND : N := 202.

Record audit_event := mkAuditEvent {
  patient_bns : string;
  provider : principal;
  event_type : string;
  block_height : N;
  record_scope : list string;
  details : option string
}.

(** The three data maps of the contract. *)
Record store := mkStore {
  audit_events : gmap string audit_event;
  patient_event_index : gmap (string * N) string;
  patient_event_count : gmap string N
}.

Definition empty_store : store := mkStore ∅ ∅ ∅.

Definition set_audit_events (id : string) (ev : audit_event)
    : clar store unit :=
  fun s => (Val tt,
    mkStore (<[id := ev]> (audit_events s)) (patient_event_index s)
            (patient_event_count s)).

Definition set_patient_event_index (k : string * N) (id : string)
    : clar store unit :=
  fun s => (Val tt,
    mkStore (audit_events s) (<[k := id]> (patient_event_index s))
            (patient_event_count s)).

Definition set_patient_event_count (p : string) (n : N)
    : clar store unit :=
  fun s => (Val tt,
    mkStore (audit_events s) (patient_event_index s)
            (<[p := n]> (patient_event_count s))).

Section Contract.
Variable deployer : string.

Definition ACCESS_CONTROL : principal :=
  ContractPrincipal deployer "access-control".

Definition log_event (e : env) (event_id : string) (patient_bns : string)
    (provider : principal) (event_type : string)
    (record_scope : list string) (details : option string)
    : clar store response :=
  define_public (
    asserts (bool_decide (contract_caller e = ACCESS_CONTROL))
            ERR_UNAUTHORIZED_LOGGER ;;
    asserts (0 <? len_str event_id) ERR_INVALID_EVENT ;;
    s <- get_store ;;
    asserts (bool_decide (audit_events s !! event_id = None))
            ERR_INVALID_EVENT ;;
    asserts (0 <? len_str patient_bns) ERR_INVALID_EVENT ;;
    asserts (0 <? len_str event_type) ERR_INVALID_EVENT ;;
    set_audit_events event_id
      (mkAuditEvent patient_bns provider event_type
         (stacks_block_height e) record_scope details) ;;
    s1 <- get_store ;;
    let current_count := default 0 (patient_event_count s1 !! patient_bns) in
    set_patient_event_index (patient_bns, current_count) event_id ;;
    n <- uint_add current_count 1 ;;
    set_patient_event_count patient_bns n ;;
    ret (ROk true)).
End Contract.

(** [get-patient-audit-trail]: always [(ok n)]; the count is returned. *)
Definition get_patient_audit_trail (s : store) (patient_bns : string) : N :=
  match patient_event_count s !! patient_bns with
  | Some count_data => count_data
  | None => 0
  end.

(** [get-event-details]: always [(ok ..)] of the optional record. *)
Definition get_event_details (s : store) (event_id : string)
    : option audit_event :=
  audit_events s !! event_id.

(** [get-patient-event-id]: always [(ok ..)] of the optional id. *)
Definition get_patient_event_id (s : store) (patient_bns : string)
    (event_number : N) : option string :=
  patient_event_index s !! (patient_bns, event_number).

End AuditTrail.

(** ** The Consent & Grant Ledger: access-control contract *)

Module AccessControl.

Definition ERR_NOT_AUTHORIZED : N := 100.
Definition ERR_INVALID_GRANT : N := 101.
Definition ERR_GRANT_EXPIRED : N := 102.
Definition ERR_GRANT_NOT_FOUND : N := 103.
Definition ERR_PROVIDER_NOT_VERIFIED : N := 104.
Definition ERR_INVALID_PATIENT_BNS : N := 105.
Definition ERR_INVALID_SCOPE : N := 106.
Definition ERR_CONSENT_NOT_FOUND : N := 107.
Definition ERR_CONSENT_NOT_APPROVED : N := 108.
Definition ERR_INVALID_MAX_ACCESSES : N := 109.

Definition CONSENT_PENDING : string := "pending".
Definition CONSENT_APPROVED : string := "approved".
Definition CONSENT_REVOKED : string := "revoked".
Definition MAX_GRANT_DURATION : N := 52560000.

Record grant := mkGrant {
  expiry_block : N;
  record_scope : list string;
  granted_at : N;
  granted_by : principal;
  status : string;
  max_accesses : option N;
  access_count : N;
  last_accessed : option N
}.

Record consent := mkConsent {
  consent_status : string;
  consent_record_scope : list string;
  consent_given_at : N;
  consent_expires_at : option N;
  revoked_at : option N;
  revoked_by : option principal
}.

(** The data maps of the contract; [patient_consents] exists in the current
    revision only and is never read by the grant entry points. *)
Record store := mkStore {
  access_grants : gmap (string * principal) grant;
  patient_consents : gmap (principal * principal) consent
}.

Definition empty_store : store := mkStore ∅ ∅.

(** The ledger as one transaction sees it: the maps of the three
    contracts.  Each contract writes only its own maps. *)
Record chain := mkChain {
  registry : ProviderVerification.store;
  ledger : store;
  audit : AuditTrail.store
}.

Definition empty_chain : chain :=
  mkChain ProviderVerification.empty_store empty_store
          AuditTrail.empty_store.

Definition set_access_grants (k : string * principal) (g : grant)
    : clar chain unit :=
  fun c => (Val tt,
    mkChain (registry c)
      (mkStore (<[k := g]> (access_grants (ledger c)))
               (patient_consents (ledger c)))
      (audit c)).

Definition set_patient_consents (k : principal * principal) (v : consent)
    : clar chain unit :=
  fun c => (Val tt,
    mkChain (registry c)
      (mkStore (access_grants (ledger c))
               (<[k := v]> (patient_consents (ledger c))))
      (audit c)).

(** A call into provider-verification: the callee runs on the registry's
    maps. *)
Definition call_registry {A} (m : clar ProviderVerification.store A)
    : clar chain A :=
  fun c =>
    let '(o, r') := m (registry c) in
    (o, mkChain r' (ledger c) (audit c)).

(** The callee of a [contract-call?] as the source writes it: a contract
    literal such as [.provider-verification], or a name bound by
    [define-constant]. *)
Inductive callee :=
| ContractLiteral (name : string)
| ConstantName (name : string).

(** [(define-constant PROVIDER-VERIFICATION-CONTRACT .provider-verification)]:
    every [contract-call?] of the contract names this constant. *)
Definition PROVIDER_VERIFICATION_CONTRACT : callee :=
  ConstantName "PROVIDER-VERIFICATION-CONTRACT".

(** [(contract-call? callee f args)].  A contract literal is dispatched and
    the function runs on the callee's maps.  The name of a constant is not
    dispatched: the VM raises a runtime error and the transaction aborts,
    whatever the constant holds. *)
Definition contract_call {A} (target : callee)
    (m : clar ProviderVerification.store A) : clar chain A :=
  match target with
  | ContractLiteral _ => call_registry m
  | ConstantName _ => panic
  end.

Section Contract.
Variable deployer : string.

Definition SELF : principal := ContractPrincipal deployer "access-control".

(** Inside a dispatched [contract-call?] made by this contract,
    [contract-caller] is this contract and [tx-sender] is unchanged. *)
Definition callee_env (e : env) : env :=
  mkEnv (tx_sender e) SELF (stacks_block_height e).

Definition approve_provider_access (e : env) (provider : principal)
    (record_scope : list string) (expires_at : option N)
    : clar chain response :=
  define_public (
    c <- get_store ;;
    asserts (bool_decide
               (patient_consents (ledger c) !! (tx_sender e, provider) = None))
            ERR_INVALID_GRANT ;;
    asserts (0 <? len_list record_scope) ERR_INVALID_SCOPE ;;
    set_patient_consents (tx_sender e, provider)
      (mkConsent CONSENT_APPROVED record_scope (stacks_block_height e)
         expires_at None None) ;;
    ret (ROk true)).

Definition revoke_provider_consent (e : env) (provider : principal)
    : clar chain response :=
  define_public (
    c <- get_store ;;
    v <- unwrap (patient_consents (ledger c) !! (tx_sender e, provider))
                ERR_CONSENT_NOT_FOUND ;;
    set_patient_consents (tx_sender e, provider)
      (mkConsent CONSENT_REVOKED (consent_record_scope v)
         (consent_given_at v) (consent_expires_at v)
         (Some (stacks_block_height e)) (Some (tx_sender e))) ;;
    ret (ROk true)).

Definition has_patient_consent (e : env) (s : store)
    (patient provider : principal) : response :=
  match patient_consents s !! (patient, provider) with
  | Some v =>
      if String.eqb (consent_status v) CONSENT_APPROVED
      then match consent_expires_at v with
           | Some expires_at =>
               if stacks_block_height e <? expires_at
               then ROk true
               else RErr ERR_GRANT_EXPIRED
           | None => ROk true
           end
      else RErr ERR_CONSENT_NOT_APPROVED
  | None => RErr ERR_CONSENT_NOT_FOUND
  end.

(** [grant-access], current revision (src/contracts/README.md).  Its first
    expression is the [contract-call?] of [verify-provider]. *)
Definition grant_access (e : env) (provider : principal)
    (patient_bns : string) (expiry_block : N) (record_scope : list string)
    (max_accesses : option N) : clar chain response :=
  define_public (
    v <- contract_call PROVIDER_VERIFICATION_CONTRACT
           (read_only (fun r =>
              ProviderVerification.verify_provider (callee_env e) r
                provider)) ;;
    asserts (is_ok v) ERR_PROVIDER_NOT_VERIFIED ;;
    asserts (0 <? len_str patient_bns) ERR_INVALID_PATIENT_BNS ;;
    asserts (stacks_block_height e <? expiry_block) ERR_INVALID_GRANT ;;
    d <- uint_sub expiry_block (stacks_block_height e) ;;
    asserts (d <? MAX_GRANT_DURATION) ERR_INVALID_GRANT ;;
    asserts (0 <? len_list record_scope) ERR_INVALID_SCOPE ;;
    match max_accesses with
    | Some max_acc => asserts (0 <? max_acc) ERR_INVALID_MAX_ACCESSES
    | None => ret tt
    end ;;
    set_access_grants (patient_bns, provider)
      (mkGrant expiry_block record_scope (stacks_block_height e)
         (tx_sender e) "active" max_accesses 0 None) ;;
    r <- contract_call PROVIDER_VERIFICATION_CONTRACT
           (ProviderVerification.record_provider_activity deployer
              (callee_env e) provider) ;;
    try r ;;
    ret (ROk true)).

(** [grant-access], earlier revision (src/unnamed/part_008): no bound on
    the duration and no check of [max-accesses]. *)
Definition grant_access_part_008 (e : env) (provider : principal)
    (patient_bns : string) (expiry_block : N) (record_scope : list string)
    (max_accesses : option N) : clar chain response :=
  define_public (
    v <- contract_call PROVIDER_VERIFICATION_CONTRACT
           (read_only (fun r =>
              ProviderVerification.verify_provider (callee_env e) r
                provider)) ;;
    asserts (is_ok v) ERR_PROVIDER_NOT_VERIFIED ;;
    asserts (0 <? len_str patient_bns) ERR_INVALID_PATIENT_BNS ;;
    asserts (stacks_block_height e <? expiry_block) ERR_INVALID_GRANT ;;
    asserts (0 <? len_list record_scope) ERR_INVALID_SCOPE ;;
    set_access_grants (patient_bns, provider)
      (mkGrant expiry_block record_scope (stacks_block_height e)
         (tx_sender e) "active" max_accesses 0 None) ;;
    r <- contract_call PROVIDER_VERIFICATION_CONTRACT
           (ProviderVerification.record_provider_activity deployer
              (callee_env e) provider) ;;
    try r ;;
    ret (ROk true)).

Definition revoke_access (e : env) (provider : principal)
    (patient_bns : string) : clar chain response :=
  define_public (
    c <- get_store ;;
    g <- unwrap (access_grants (ledger c) !! (patient_bns, provider))
                ERR_GRANT_NOT_FOUND ;;
    set_access_grants (patient_bns, provider)
      (mkGrant (expiry_block g) (record_scope g) (granted_at g)
         (granted_by g) "revoked" (max_accesses g) (access_count g)
         (last_accessed g)) ;;
    ret (ROk true)).

Definition has_access (e : env) (s : store) (provider : principal)
    (patient_bns : string) : response :=
  match access_grants s !! (patient_bns, provider) with
  | Some g =>
      if String.eqb (status g) "active"
         && (stacks_block_height e <? expiry_block g)
         && match max_accesses g with
            | Some max_acc => access_count g <? max_acc
            | None => true
            end
      then ROk true
      else if expiry_block g <? stacks_block_height e
           then RErr ERR_GRANT_EXPIRED
           else RErr ERR_INVALID_GRANT
  | None => RErr ERR_GRANT_NOT_FOUND
  end.

Definition use_access (e : env) (provider : principal)
    (patient_bns : string) : clar chain response :=
  define_public (
    c <- get_store ;;
    try (has_access e (ledger c) provider patient_bns) ;;
    g <- unwrap_panic (access_grants (ledger c) !! (patient_bns, provider)) ;;
    n <- uint_add (access_count g) 1 ;;
    set_access_grants (patient_bns, provider)
      (mkGrant (expiry_block g) (record_scope g) (granted_at g)
         (granted_by g) (status g) (max_accesses g) n
         (Some (stacks_block_height e))) ;;
    r <- contract_call PROVIDER_VERIFICATION_CONTRACT
           (ProviderVerification.record_provider_activity deployer
              (callee_env e) provider) ;;
    try r ;;
    ret (ROk true)).

(** [get-access-grant]: always [(ok ..)] of the optional record. *)
Definition get_access_grant (s : store) (provider : principal)
    (patient_bns : string) : option grant :=
  access_grants s !! (patient_bns, provider).

Definition has_record_scope_access (e : env) (s : store)
    (provider : principal) (patient_bns : string) (record_type : string)
    : response :=
  match access_grants s !! (patient_bns, provider) with
  | Some g =>
      if String.eqb (status g) "active"
         && (stacks_block_height e <? expiry_block g)
         && bool_decide (is_Some (index_of (record_scope g) record_type))
      then ROk true
      else RErr ERR_INVALID_GRANT
  | None => RErr ERR_GRANT_NOT_FOUND
  end.
End Contract.

End AccessControl.

(** ** Transactions *)

(** The entry points a client can invoke, with their arguments. *)
Inductive call :=
| RegisterProvider (provider : principal) (license_number : string)
    (credential_types : list string) (expires_at : N)
    (issuing_authority credential_hash : string)
| UpdateProviderCredentials (provider : principal) (new_expires_at : N)
    (new_credential_types : list string)
| SuspendProvider (provider : principal) (reason : string)
| ReactivateProvider (provider : principal)
| AddCredentialType (credential_type description : string)
    (required_for_access : bool)
| RecordProviderActivity (provider : principal)
| LogEvent (event_id patient_bns : string) (provider : principal)
    (event_type : string) (record_scope : list string)
    (details : option string)
| ApproveProviderAccess (provider : principal) (record_scope : list string)
    (expires_at : option N)
| RevokeProviderConsent (provider : principal)
| GrantAccess (provider : principal) (patient_bns : string)
    (expiry_block : N) (record_scope : list string) (max_accesses : option N)
| RevokeAccess (provider : principal) (patient_bns : string)
| UseAccess (provider : principal) (patient_bns : string).

(** Which revision of access-control is deployed. *)
Inductive revision := Part008 | Latest.

(** A transaction is signed by a standard principal and mined at a height;
    at the entry point [contract-caller] equals [tx-sender]. *)
Record transaction := mkTx {
  sender : string;
  height : N;
  entry : call
}.

Definition tx_env (t : transaction) : env :=
  mkEnv (StandardPrincipal (sender t)) (StandardPrincipal (sender t))
        (height t).

(** A call commits its writes when it returns [(ok ..)]. *)
Definition committed (o : outcome response) : bool :=
  match o with
  | Val (ROk _) => true
  | _ => false
  end.

Definition call_audit {A} (m : clar AuditTrail.store A)
    : clar AccessControl.chain A :=
  fun c =>
    let '(o, a') := m (AccessControl.audit c) in
    (o, AccessControl.mkChain (AccessControl.registry c)
          (AccessControl.ledger c) a').

Section Execution.
Variable deployer : string.
Variable rev : revision.

Definition grant_access_of :=
  match rev with
  | Part008 => AccessControl.grant_access_part_008 deployer
  | Latest => AccessControl.grant_access deployer
  end.

(** One transaction.  The consent entry points exist in the current revision
    only; calling a function a contract does not define aborts. *)
Definition exec (t : transaction) : clar AccessControl.chain response :=
  let e := tx_env t in
  match entry t with
  | RegisterProvider p l ts x a h =>
      AccessControl.call_registry
        (ProviderVerification.register_provider deployer e p l ts x a h)
  | UpdateProviderCredentials p x ts =>
      AccessControl.call_registry
        (ProviderVerification.update_provider_credentials deployer e p x ts)
  | SuspendProvider p r =>
      AccessControl.call_registry
        (ProviderVerification.suspend_provider deployer e p r)
  | ReactivateProvider p =>
      AccessControl.call_registry
        (ProviderVerification.reactivate_provider deployer e p)
  | AddCredentialType t d r =>
      AccessControl.call_registry
        (ProviderVerification.add_credential_type deployer e t d r)
  | RecordProviderActivity p =>
      AccessControl.call_registry
        (ProviderVerification.record_provider_activity deployer e p)
  | LogEvent i b p t sc d =>
      call_audit (AuditTrail.log_event deployer e i b p t sc d)
  | ApproveProviderAccess p sc x =>
      match rev with
      | Latest => AccessControl.approve_provider_access e p sc x
      | Part008 => panic
      end
  | RevokeProviderConsent p =>
      match rev with
      | Latest => AccessControl.revoke_provider_consent e p
      | Part008 => panic
      end
  | GrantAccess p b x sc m => grant_access_of e p b x sc m
  | RevokeAccess p b => AccessControl.revoke_access e p b
  | UseAccess p b => AccessControl.use_access deployer e p b
  end.

(** The ledger after a transaction: what the call committed. *)
Definition apply_tx (c : AccessControl.chain) (t : transaction)
    : AccessControl.chain :=
  snd (exec t c).

Definition run (ts : list transaction) (c : AccessControl.chain)
    : AccessControl.chain :=
  fold_left apply_tx ts c.

(** Whether a transaction commits, that is, returns [(ok ..)]. *)
Definition succeeds (t : transaction) (c : AccessControl.chain) : bool :=
  committed (fst (exec t c)).
End Execution.

(** ** Net effects

    The states an entry point leaves behind, named so that the effect of a
    call can be written as one equation. *)

(** What a successful [log-event] leaves behind: the event record, the index
    entry at the prior count, and the count plus one. *)
Definition logged (s : AuditTrail.store) (h : N) (event_id patient_bns : string)
    (provider : principal) (event_type : string) (record_scope : list string)
    (details : option string) : AuditTrail.store :=
  let n := AuditTrail.get_patient_audit_trail s patient_bns in
  AuditTrail.mkStore
    (<[event_id := AuditTrail.mkAuditEvent patient_bns provider event_type h
                     record_scope details]> (AuditTrail.audit_events s))
    (<[(patient_bns, n) := event_id]> (AuditTrail.patient_event_index s))
    (<[patient_bns := n + 1]> (AuditTrail.patient_event_count s)).

(** The registry after a successful [register-provider]. *)
Definition registered (s : ProviderVerification.store) (e : env)
    (provider : principal) (license_number : string)
    (credential_types : list string) (expires_at : N)
    (issuing_authority credential_hash : string)
    : ProviderVerification.store :=
  ProviderVerification.mkStore
    (<[provider :=
         ProviderVerification.mkCredentials license_number credential_types
           (stacks_block_height e) expires_at issuing_authority "verified"
           (stacks_block_height e) None]>
       (ProviderVerification.provider_credentials s))
    (ProviderVerification.verification_history s)
    (ProviderVerification.valid_credential_types s)
    (<[(provider, "verification-id") :=
         ProviderVerification.mkVerification (tx_sender e)
           (stacks_block_height e) credential_hash "verified" None]>
       (ProviderVerification.credential_verifications s))
    (<[provider :=
         ProviderVerification.mkStatusInfo (stacks_block_height e)
           (stacks_block_height e) 0 "active" (tx_sender e)]>
       (ProviderVerification.provider_status s)).

(** The registry with the status record of [provider] replaced. *)
Definition with_status (s : ProviderVerification.store) (provider : principal)
    (st : ProviderVerification.status_info) : ProviderVerification.store :=
  ProviderVerification.mkStore
    (ProviderVerification.provider_credentials s)
    (ProviderVerification.verification_history s)
    (ProviderVerification.valid_credential_types s)
    (ProviderVerification.credential_verifications s)
    (<[provider := st]> (ProviderVerification.provider_status s)).

(** The registry with the credential record of [provider] replaced. *)
Definition with_credentials (s : ProviderVerification.store)
    (provider : principal) (c : ProviderVerification.credentials)
    : ProviderVerification.store :=
  ProviderVerification.mkStore
    (<[provider := c]> (ProviderVerification.provider_credentials s))
    (ProviderVerification.verification_history s)
    (ProviderVerification.valid_credential_types s)
    (ProviderVerification.credential_verifications s)
    (ProviderVerification.provider_status s).

(** The status record after one recorded activity at height [h]. *)
Definition active_at (st : ProviderVerification.status_info) (h : N)
    : ProviderVerification.status_info :=
  ProviderVerification.mkStatusInfo
    (ProviderVerification.registration_date st) h
    (ProviderVerification.access_count st + 1)
    (ProviderVerification.status st) (ProviderVerification.updated_by st).

(** The chain with one grant written. *)
Definition with_grant (c : AccessControl.chain) (k : string * principal)
    (g : AccessControl.grant) : AccessControl.chain :=
  AccessControl.mkChain (AccessControl.registry c)
    (AccessControl.mkStore
       (<[k := g]> (AccessControl.access_grants (AccessControl.ledger c)))
       (AccessControl.patient_consents (AccessControl.ledger c)))
    (AccessControl.audit c).

(** The chain with one consent record written. *)
Definition with_consent (c : AccessControl.chain) (k : principal * principal)
    (v : AccessControl.consent) : AccessControl.chain :=
  AccessControl.mkChain (AccessControl.registry c)
    (AccessControl.mkStore
       (AccessControl.access_grants (AccessControl.ledger c))
       (<[k := v]> (AccessControl.patient_consents (AccessControl.ledger c))))
    (AccessControl.audit c).

(** The grant record after [revoke-access]. *)
Definition revoked (g : AccessControl.grant) : AccessControl.grant :=
  AccessControl.mkGrant (AccessControl.expiry_block g)
    (AccessControl.record_scope g) (AccessControl.granted_at g)
    (AccessControl.granted_by g) "revoked" (AccessControl.max_accesses g)
    (AccessControl.access_count g) (AccessControl.last_accessed g).

(** ** Traces

    Step relations for the effect of one transaction on the grants and on the
    registry, and predicates over sequences of transactions. *)

(** The effect of one transaction on the map of grants: nothing, or a grant
    marked by [revoke-access].  No other entry point commits a write to the
    map. *)
Inductive grants_step (deployer : string) (rev : revision) (t : transaction)
    (c : AccessControl.chain)
    (m' : gmap (string * principal) AccessControl.grant) : Prop :=
| grants_same :
    succeeds deployer rev t c = false
    \/ (forall p b, entry t <> RevokeAccess p b) ->
    m' = AccessControl.access_grants (AccessControl.ledger c) ->
    grants_step deployer rev t c m'
| grants_revoked p b g :
    entry t = RevokeAccess p b ->
    succeeds deployer rev t c = true ->
    AccessControl.access_grants (AccessControl.ledger c) !! (b, p) = Some g ->
    m' = <[(b, p) := revoked g]>
           (AccessControl.access_grants (AccessControl.ledger c)) ->
    grants_step deployer rev t c m'.

(** The effect of one transaction on the registry: nothing, a registration,
    new credentials for a registered provider, a suspension or a
    reactivation, or a credential type. *)
Inductive registry_step (deployer : string) (rev : revision)
    (t : transaction) (c : AccessControl.chain)
    (r' : ProviderVerification.store) : Prop :=
| registry_same :
    r' = AccessControl.registry c ->
    registry_step deployer rev t c r'
| registry_registered p l ts x a hs :
    entry t = RegisterProvider p l ts x a hs ->
    ProviderVerification.provider_credentials (AccessControl.registry c) !! p
    = None ->
    r' = registered (AccessControl.registry c) (tx_env t) p l ts x a hs ->
    registry_step deployer rev t c r'
| registry_renewed p cr cr' :
    ProviderVerification.provider_credentials (AccessControl.registry c) !! p
    = Some cr ->
    r' = with_credentials (AccessControl.registry c) p cr' ->
    registry_step deployer rev t c r'
| registry_toggled p st cr new_status cr' :
    ProviderVerification.provider_status (AccessControl.registry c) !! p
    = Some st ->
    ProviderVerification.provider_credentials (AccessControl.registry c) !! p
    = Some cr ->
    new_status = "suspended"
    \/ (entry t = ReactivateProvider p
        /\ succeeds deployer rev t c = true) ->
    r' = with_credentials
           (with_status (AccessControl.registry c) p
              (ProviderVerification.mkStatusInfo
                 (ProviderVerification.registration_date st)
                 (ProviderVerification.last_activity st)
                 (ProviderVerification.access_count st) new_status
                 (tx_sender (tx_env t))))
           p cr' ->
    registry_step deployer rev t c r'
| registry_type_added ty i :
    r' = ProviderVerification.mkStore
           (ProviderVerification.provider_credentials (AccessControl.registry c))
           (ProviderVerification.verification_history (AccessControl.registry c))
           (<[ty := i]>
              (ProviderVerification.valid_credential_types
                 (AccessControl.registry c)))
           (ProviderVerification.credential_verifications
              (AccessControl.registry c))
           (ProviderVerification.provider_status (AccessControl.registry c)) ->
    registry_step deployer rev t c r'.

(** A [grant-access] aimed at one (provider, patient) pair. *)
Definition is_grant_of (provider : principal) (patient_bns : string)
    (t : transaction) : bool :=
  match entry t with
  | GrantAccess p b _ _ _ =>
      bool_decide (p = provider) && bool_decide (b = patient_bns)
  | _ => false
  end.

(** [along P ts c]: every transaction of [ts], run in order from [c],
    satisfies [P] in the state it runs in. *)
Fixpoint along (deployer : string) (rev : revision)
    (P : transaction -> AccessControl.chain -> Prop)
    (ts : list transaction) (c : AccessControl.chain) : Prop :=
  match ts with
  | [] => True
  | t :: ts' => P t c /\ along deployer rev P ts' (apply_tx deployer rev c t)
  end.

(** No [grant-access] for the pair commits. *)
Definition not_regranted (deployer : string) (rev : revision)
    (provider : principal) (patient_bns : string)
    (t : transaction) (c : AccessControl.chain) : Prop :=
  is_grant_of provider patient_bns t = true ->
  succeeds deployer rev t c = false.

(** In a well-formed registry every verification entry belongs to a provider
    with a credential record, and [verification-history], which no entry
    point writes, is empty. *)
Definition registry_wf (r : ProviderVerification.store) : Prop :=
  (forall p id,
     is_Some (ProviderVerification.credential_verifications r !! (p, id)) ->
     is_Some (ProviderVerification.provider_credentials r !! p))
  /\ ProviderVerification.verification_history r = ∅.

(** The two records of a provider go together: a status record exists
    exactly when a credential record does. *)
Definition registry_paired (r : ProviderVerification.store) : Prop :=
  forall p,
    is_Some (ProviderVerification.provider_status r !! p)
    <-> is_Some (ProviderVerification.provider_credentials r !! p).

(** A registry in which no activity was ever recorded: every status record
    has [access-count] 0 and a [last-activity] equal to its
    [registration-date]. *)
Definition never_active (r : ProviderVerification.store) : Prop :=
  forall p st,
    ProviderVerification.provider_status r !! p = Some st ->
    ProviderVerification.access_count st = 0
    /\ ProviderVerification.last_activity st
       = ProviderVerification.registration_date st.

(** One call of [log-event]: its context and its arguments. *)
Record log_call := mkLogCall {
  lc_env : env;
  lc_event_id : string;
  lc_patient_bns : string;
  lc_provider : principal;
  lc_event_type : string;
  lc_record_scope : list string;
  lc_details : option string
}.

Definition log_call_run (deployer : string) (k : log_call)
    : clar AuditTrail.store response :=
  AuditTrail.log_event deployer (lc_env k) (lc_event_id k) (lc_patient_bns k)
    (lc_provider k) (lc_event_type k) (lc_record_scope k) (lc_details k).

(** The audit log after a sequence of [log-event] calls, each committed or
    rolled back. *)
Definition log_all (deployer : string) (ks : list log_call)
    (s : AuditTrail.store) : AuditTrail.store :=
  fold_left (fun s k => snd (log_call_run deployer k s)) ks s.

(** The number of calls of [ks], run in order from [s], that log an event of
    [patient_bns]. *)
Fixpoint logged_for (deployer : string) (patient_bns : string)
    (ks : list log_call) (s : AuditTrail.store) : N :=
  match ks with
  | [] => 0
  | k :: ks' =>
      (if bool_decide (lc_patient_bns k = patient_bns)
          && committed (fst (log_call_run deployer k s))
       then 1 else 0)
      + logged_for deployer patient_bns ks' (snd (log_call_run deployer k s))
  end.

(** The index of a well-formed audit log: a patient's positions are exactly
    those below the patient's count, every position holds the id of a stored
    event of that patient, and no id is held twice. *)
Definition audit_wf (s : AuditTrail.store) : Prop :=
  (forall p i,
     is_Some (AuditTrail.get_patient_event_id s p i)
     <-> i < AuditTrail.get_patient_audit_trail s p)
  /\ (forall p i id,
        AuditTrail.get_patient_event_id s p i = Some id ->
        exists ev,
          AuditTrail.get_event_details s id = Some ev
          /\ AuditTrail.patient_bns ev = p)
  /\ (forall p1 i1 p2 i2 id,
        AuditTrail.get_patient_event_id s p1 i1 = Some id ->
        AuditTrail.get_patient_event_id s p2 i2 = Some id ->
        (p1, i1) = (p2, i2)).

(** ** Concrete scenarios

    States and calls used to run the contracts on explicit inputs. *)

(** The contract owner "SP1" calling the registry directly at height 100. *)
Definition owner_env : env :=
  mkEnv (StandardPrincipal "SP1") (StandardPrincipal "SP1") 100.

(** The principal "SP2", acting for the patient, calling at height [h]. *)
Definition patient_env (h : N) : env :=
  mkEnv (StandardPrincipal "SP2") (StandardPrincipal "SP2") h.

(** The provider "SP3" using a grant at height [h]. *)
Definition provider_env (h : N) : env :=
  mkEnv (StandardPrincipal "SP3") (StandardPrincipal "SP3") h.

(** The access-control contract calling another contract of deployer "SP1"
    in a transaction signed by "SP2" at height 20. *)
Definition ledger_call_env : env :=
  mkEnv (StandardPrincipal "SP2") (ContractPrincipal "SP1" "access-control") 20.

(** The owner suspends provider "SP3" at height 150. *)
Definition suspension_env : env :=
  mkEnv (StandardPrincipal "SP1") (StandardPrincipal "SP1") 150.

(** A grant whose usage budget is used up. *)
Definition exhausted_grant : AccessControl.grant :=
  AccessControl.mkGrant 500 ["lab-results"; "imaging"] 10
    (StandardPrincipal "SP1") "active" (Some 2) 2 (Some 40).

Definition exhausted_store : AccessControl.store :=
  AccessControl.mkStore
    {[ ("patient-1", StandardPrincipal "SP3") := exhausted_grant ]} ∅.

(** An audit log holding one event of "patient-1". *)
Definition audit_store_one : AuditTrail.store :=
  AuditTrail.mkStore
    {[ "evt-1" := AuditTrail.mkAuditEvent "patient-1" (StandardPrincipal "SP3")
                    "access_granted" 12 ["lab-results"] None ]}
    {[ ("patient-1", 0) := "evt-1" ]}
    {[ "patient-1" := 1 ]}.

(** The owner adds the credential type "medical-license" at height 100. *)
Definition type_txs : list transaction :=
  [ mkTx "SP1" 100 (AddCredentialType "medical-license"
                      "State medical license" true) ].

(** The registry after that: it recognises "medical-license". *)
Definition registry_with_types : ProviderVerification.store :=
  AccessControl.registry (run "SP1" Latest type_txs AccessControl.empty_chain).

(** That registry after provider "SP3" is registered at height 100 with
    expiry 10100. *)
Definition registry_with_provider : ProviderVerification.store :=
  registered registry_with_types owner_env (StandardPrincipal "SP3")
    "LIC-001" ["medical-license"] 10100 "State Medical Board" "abc123".

(** The owner "SP1" adds the type "medical-license" and registers provider
    "SP3" at height 100 with expiry 10100. *)
Definition registration_txs : list transaction :=
  type_txs
  ++ [ mkTx "SP1" 100 (RegisterProvider (StandardPrincipal "SP3") "LIC-001"
                         ["medical-license"] 10100 "State Medical Board"
                         "abc123") ].

Definition chain_registered : AccessControl.chain :=
  run "SP1" Latest registration_txs AccessControl.empty_chain.

(** The end-to-end scenario of the specification, as transactions: after the
    registration, at height 110 a grant on "patient-1" is requested for
    "SP3", valid until height 610, for at most two accesses. *)
Definition setup_txs : list transaction :=
  registration_txs
  ++ [ mkTx "SP2" 110 (GrantAccess (StandardPrincipal "SP3") "patient-1" 610
                         ["lab-results"] (Some 2)) ].

(** The grant that request asks for. *)
Definition requested_grant : AccessControl.grant :=
  AccessControl.mkGrant 610 ["lab-results"] 110 (StandardPrincipal "SP2")
    "active" (Some 2) 0 None.

(** A ledger that holds this grant beside the registered provider.  The map
    of grants is written here directly: it is the state the read-only
    functions and [revoke-access] are run on. *)
Definition chain_granted : AccessControl.chain :=
  AccessControl.mkChain (AccessControl.registry chain_registered)
    (AccessControl.mkStore
       {[ ("patient-1", StandardPrincipal "SP3") := requested_grant ]} ∅)
    (AccessControl.audit chain_registered).

(** Later traffic: the provider asks to use the grant, another patient's
    grant is requested, a grant that does not exist is revoked, and a grant
    on "patient-1" with an expiry in the past is requested. *)
Definition later_txs : list transaction :=
  [ mkTx "SP3" 120 (UseAccess (StandardPrincipal "SP3") "patient-1");
    mkTx "SP2" 125 (GrantAccess (StandardPrincipal "SP3") "patient-2" 700
                      ["imaging"] None);
    mkTx "SP3" 130 (UseAccess (StandardPrincipal "SP3") "patient-1");
    mkTx "SP2" 131 (RevokeAccess (StandardPrincipal "SP3") "patient-9");
    mkTx "SP2" 135 (GrantAccess (StandardPrincipal "SP3") "patient-1" 100
                      ["lab-results"] None);
    mkTx "SP3" 140 (UseAccess (StandardPrincipal "SP3") "patient-1") ].

(** The registry and the chain after that suspension. *)
Definition registry_suspended : ProviderVerification.store :=
  snd (ProviderVerification.suspend_provider "SP1" suspension_env
         (StandardPrincipal "SP3") "License under review"
         (AccessControl.registry chain_granted)).

Definition chain_suspended : AccessControl.chain :=
  AccessControl.mkChain registry_suspended
    (AccessControl.ledger chain_granted) (AccessControl.audit chain_granted).

(** Traffic after the suspension: a request to use the grant, a renewal of
    the credentials by the owner, and a reactivation attempted by someone
    who is not the owner (and refused). *)
Definition after_suspension_txs : list transaction :=
  [ mkTx "SP3" 160 (UseAccess (StandardPrincipal "SP3") "patient-1");
    mkTx "SP1" 180 (UpdateProviderCredentials (StandardPrincipal "SP3") 20000
                      ["medical-license"]);
    mkTx "SP2" 190 (ReactivateProvider (StandardPrincipal "SP3")) ].

(** A context in which the access-control contract of deployer "SP1" is the
    caller, at height [h]. *)
Definition ledger_env (h : N) : env :=
  mkEnv (StandardPrincipal "SP2") (ContractPrincipal "SP1" "access-control") h.

(** Calls of [log-event]: two events of "patient-1" and one of "patient-2"
    are logged; a call reusing the id "evt-1" and a call made by a signer
    directly are refused. *)
Definition log_calls : list log_call :=
  [ mkLogCall (ledger_env 30) "evt-1" "patient-1" (StandardPrincipal "SP3")
      "access_granted" ["lab-results"] None;
    mkLogCall (ledger_env 31) "evt-1" "patient-2" (StandardPrincipal "SP3")
      "access_used" ["lab-results"] None;
    mkLogCall (ledger_env 32) "evt-2" "patient-2" (StandardPrincipal "SP3")
      "access_used" ["imaging"] (Some "follow-up");
    mkLogCall (patient_env 33) "evt-9" "patient-1" (StandardPrincipal "SP3")
      "access_used" ["lab-results"] None;
    mkLogCall (ledger_env 34) "evt-3" "patient-1" (StandardPrincipal "SP3")
      "access_used" ["lab-results"] None ].

Definition more_log_calls : list log_call :=
  [ mkLogCall (ledger_env 40) "evt-4" "patient-1" (StandardPrincipal "SP3")
      "access_revoked" [] None;
    mkLogCall (ledger_env 41) "evt-1" "patient-1" (StandardPrincipal "SP4")
      "access_used" ["imaging"] None ].

(** * Verification *)

(** ** Generic facts about the evaluation monad *)

Lemma define_public_rollback {S} (body : clar S response) (s s' : S)
    (o : outcome response) :
  define_public body s = (o, s') ->
  (exists b, o = Val (ROk b)) \/ s' = s.
Proof.
  unfold define_public.
  destruct (body s) as [[[b|code]|code|] s1]; intros [= <- <-]; eauto.
Qed.

Lemma define_public_no_bail {S} (body : clar S response) (s : S) (code : N) :
  fst (define_public body s) <> Bail code.
Proof.
  unfold define_public.
  by destruct (body s) as [[[b|c]|c|] s1].
Qed.

Ltac clar_unfold :=
  unfold define_public, bind, asserts, unwrap, unwrap_panic, try, ret, bail,
    panic, get_store, put_store, uint_add, uint_sub in *.

(** How each primitive continues, as equations on [bind]. *)
Section BindEquations.
Context {S B : Type}.
Implicit Types (s : S).

Lemma bind_ret {A} (a : A) (k : A -> clar S B) s :
  bind (ret a) k s = k a s.
Proof. reflexivity. Qed.

Lemma bind_get_store (k : S -> clar S B) s :
  bind get_store k s = k s s.
Proof. reflexivity. Qed.

Lemma bind_asserts (c : bool) (e : N) (k : unit -> clar S B) s :
  bind (asserts c e) k s = if c then k tt s else (Bail e, s).
Proof. by destruct c. Qed.

Lemma bind_unwrap {A} (o : option A) (e : N) (k : A -> clar S B) s :
  bind (unwrap o e) k s
  = match o with Some a => k a s | None => (Bail e, s) end.
Proof. by destruct o. Qed.

Lemma bind_unwrap_panic {A} (o : option A) (k : A -> clar S B) s :
  bind (unwrap_panic o) k s
  = match o with Some a => k a s | None => (Panic, s) end.
Proof. by destruct o. Qed.

Lemma bind_try (r : response) (k : bool -> clar S B) s :
  bind (try r) k s
  = match r with ROk b => k b s | RErr e => (Bail e, s) end.
Proof. by destruct r. Qed.

Lemma bind_uint_add (a b : N) (k : N -> clar S B) s :
  bind (uint_add a b) k s
  = if a + b <=? UINT_MAX then k (a + b) s else (Panic, s).
Proof. unfold uint_add. by destruct (a + b <=? UINT_MAX). Qed.

Lemma bind_uint_sub (a b : N) (k : N -> clar S B) s :
  bind (uint_sub a b) k s
  = if b <=? a then k (a - b) s else (Panic, s).
Proof. unfold uint_sub. by destruct (b <=? a). Qed.
End BindEquations.

Lemma bind_write {S A B} (w : S -> S) (a : A) (k : A -> clar S B) (s : S) :
  bind (fun s0 => (Val a, w s0)) k s = k a (w s).
Proof. reflexivity. Qed.

Ltac clar_run :=
  repeat (first
            [ rewrite bind_ret | rewrite bind_get_store | rewrite bind_asserts
            | rewrite bind_unwrap | rewrite bind_unwrap_panic
            | rewrite bind_try | rewrite bind_uint_add | rewrite bind_uint_sub
            | rewrite bind_write ];
          cbv beta).

Lemma index_of_is_Some (l : list string) (x : string) :
  is_Some (index_of l x) <-> In x l.
Proof.
  induction l as [|y l IH]; simpl.
  - split; [intros [? [=]] | done].
  - destruct (String.eqb_spec y x) as [->|Hne].
    + split; eauto.
    + rewrite <- IH. split.
      * intros [n Hn]. right.
        destruct (index_of l x); [eauto | discriminate].
      * intros [->|[n Hn]]; [done | rewrite Hn; simpl; eauto].
Qed.

(** ** The gate of the activity recorder *)

(** C2.  Called by any identity other than the access-control contract,
    [record-provider-activity] returns [(err u300)] and leaves every map of
    the registry, [provider-status] among them, as it was.  Called by the
    access-control contract for a provider with a status record (whose
    counter is below the largest [uint]), it returns [(ok true)], adds one to
    [access-count], sets [last-activity] to the current height, and changes
    nothing else. *)
Theorem record_provider_activity_gated
    (deployer : string) (e : env) (provider : principal)
    (s : ProviderVerification.store) :
  (contract_caller e <> ProviderVerification.ACCESS_CONTROL deployer ->
   ProviderVerification.record_provider_activity deployer e provider s
   = (Val (RErr ProviderVerification.ERR_NOT_AUTHORIZED), s))
  /\
  (contract_caller e = ProviderVerification.ACCESS_CONTROL deployer ->
   forall st : ProviderVerification.status_info,
     ProviderVerification.provider_status s !! provider = Some st ->
     ProviderVerification.access_count st < UINT_MAX ->
     exists s',
       ProviderVerification.record_provider_activity deployer e provider s
       = (Val (ROk true), s')
       /\ ProviderVerification.provider_status s'
          = <[provider :=
                ProviderVerification.mkStatusInfo
                  (ProviderVerification.registration_date st)
                  (stacks_block_height e)
                  (ProviderVerification.access_count st + 1)
                  (ProviderVerification.status st)
                  (ProviderVerification.updated_by st)]>
              (ProviderVerification.provider_status s)
       /\ ProviderVerification.provider_credentials s'
          = ProviderVerification.provider_credentials s
       /\ ProviderVerification.verification_history s'
          = ProviderVerification.verification_history s
       /\ ProviderVerification.valid_credential_types s'
          = ProviderVerification.valid_credential_types s
       /\ ProviderVerification.credential_verifications s'
          = ProviderVerification.credential_verifications s).
Proof.
  split.
  - intros Hne.
    unfold ProviderVerification.record_provider_activity. clar_unfold.
    by rewrite bool_decide_eq_false_2.
  - intros Heq st Hst Hlt.
    unfold ProviderVerification.record_provider_activity. clar_unfold.
    rewrite bool_decide_eq_true_2 by done. simpl. rewrite Hst.
    assert ((ProviderVerification.access_count st + 1 <=? UINT_MAX) = true) as ->
      by (apply N.leb_le; lia).
    simpl. eexists; split; [reflexivity | simpl; auto].
Qed.

Lemma record_provider_activity_gated_witness :
  ProviderVerification.record_provider_activity "SP1" 
    (mkEnv (StandardPrincipal "SP2") (StandardPrincipal "SP2") 10)
    (StandardPrincipal "SP3") ProviderVerification.empty_store
  = (Val (RErr 300), ProviderVerification.empty_store)
  /\
  exists s',
    ProviderVerification.record_provider_activity "SP1"
      (mkEnv (StandardPrincipal "SP2")
             (ContractPrincipal "SP1" "access-control") 10)
      (StandardPrincipal "SP3")
      (ProviderVerification.mkStore ∅ ∅ ∅ ∅
         {[ StandardPrincipal "SP3" :=
              ProviderVerification.mkStatusInfo 1 1 4 "active"
                (StandardPrincipal "SP1") ]})
    = (Val (ROk true), s')
    /\ ProviderVerification.provider_status s' !! StandardPrincipal "SP3"
       = Some (ProviderVerification.mkStatusInfo 1 10 5 "active"
                 (StandardPrincipal "SP1")).
Proof.
  split.
  - apply (record_provider_activity_gated "SP1"
             (mkEnv (StandardPrincipal "SP2") (StandardPrincipal "SP2") 10)
             (StandardPrincipal "SP3") ProviderVerification.empty_store).
    discriminate.
  - destruct (record_provider_activity_gated "SP1"
             (mkEnv (StandardPrincipal "SP2")
                    (ContractPrincipal "SP1" "access-control") 10)
             (StandardPrincipal "SP3")
             (ProviderVerification.mkStore ∅ ∅ ∅ ∅
                {[ StandardPrincipal "SP3" :=
                     ProviderVerification.mkStatusInfo 1 1 4 "active"
                       (StandardPrincipal "SP1") ]})) as [_ H].
    destruct (H eq_refl
                (ProviderVerification.mkStatusInfo 1 1 4 "active"
                   (StandardPrincipal "SP1")))
      as (s' & Hrun & Hst & _).
    + apply lookup_singleton_eq.
    + reflexivity.
    + exists s'. split; [exact Hrun |].
      rewrite Hst. apply lookup_insert_eq.
Defined.

(** ** Scope check versus usage budget *)

(** C10.  [has-record-scope-access] does not look at the usage budget: for a
    grant whose stored status is "active", whose expiry is above the current
    height and whose scope lists the record type, it returns [(ok true)],
    also when [access-count] has reached or passed [max-accesses], where
    [has-access] on the same pair returns [(err u101)]. *)
Theorem has_record_scope_access_ignores_usage_budget
    (e : env) (s : AccessControl.store) (provider : principal)
    (patient_bns record_type : string) (g : AccessControl.grant) :
  AccessControl.access_grants s !! (patient_bns, provider) = Some g ->
  AccessControl.status g = "active" ->
  stacks_block_height e < AccessControl.expiry_block g ->
  In record_type (AccessControl.record_scope g) ->
  AccessControl.has_record_scope_access e s provider patient_bns record_type
  = ROk true
  /\ forall max_acc : N,
       AccessControl.max_accesses g = Some max_acc ->
       max_acc <= AccessControl.access_count g ->
       AccessControl.has_access e s provider patient_bns
       = RErr AccessControl.ERR_INVALID_GRANT.
Proof.
  intros Hg Hact Hexp Hin.
  unfold AccessControl.has_record_scope_access, AccessControl.has_access.
  rewrite Hg, Hact. simpl.
  apply N.ltb_lt in Hexp as Hexpb. rewrite Hexpb. simpl.
  split.
  - rewrite bool_decide_eq_true_2; [done | by apply index_of_is_Some].
  - intros max_acc -> Hle.
    assert ((AccessControl.access_count g <? max_acc) = false) as ->
      by (apply N.ltb_ge; lia).
    assert ((AccessControl.expiry_block g <? stacks_block_height e) = false)
      as -> by (apply N.ltb_ge; lia).
    done.
Qed.

Lemma has_record_scope_access_ignores_usage_budget_witness :
  AccessControl.has_record_scope_access
    (mkEnv (StandardPrincipal "SP3") (StandardPrincipal "SP3") 50)
    exhausted_store (StandardPrincipal "SP3") "patient-1" "imaging"
  = ROk true
  /\ AccessControl.has_access
       (mkEnv (StandardPrincipal "SP3") (StandardPrincipal "SP3") 50)
       exhausted_store (StandardPrincipal "SP3") "patient-1"
     = RErr 101.
Proof.
  destruct (has_record_scope_access_ignores_usage_budget
              (mkEnv (StandardPrincipal "SP3") (StandardPrincipal "SP3") 50)
              exhausted_store (StandardPrincipal "SP3") "patient-1" "imaging"
              exhausted_grant) as [H1 H2].
  - apply lookup_singleton_eq.
  - reflexivity.
  - reflexivity.
  - simpl. auto.
  - split; [exact H1 |]. apply (H2 2); [reflexivity | discriminate].
Defined.

(** ** The event logger *)

Lemma len_str_zero (s : string) : (0 <? len_str s) = false <-> s = "".
Proof.
  unfold len_str. destruct s; simpl; [done |].
  split; [| done]. intros H. apply N.ltb_ge in H. lia.
Qed.

Lemma len_str_pos (s : string) : (0 <? len_str s) = true <-> s <> "".
Proof.
  rewrite <- len_str_zero. destruct (0 <? len_str s); split; congruence.
Qed.


Lemma log_event_effect
    (deployer : string) (e : env) (event_id patient_bns : string)
    (provider : principal) (event_type : string) (record_scope : list string)
    (details : option string) (s : AuditTrail.store) :
  AuditTrail.log_event deployer e event_id patient_bns provider
             event_type record_scope details s
  = if bool_decide (contract_caller e = AuditTrail.ACCESS_CONTROL deployer)
    then
      if (0 <? len_str event_id)
         && bool_decide (AuditTrail.audit_events s !! event_id = None)
         && (0 <? len_str patient_bns) && (0 <? len_str event_type)
      then
        if AuditTrail.get_patient_audit_trail s patient_bns + 1 <=? UINT_MAX
        then (Val (ROk true),
              logged s (stacks_block_height e) event_id patient_bns provider
                event_type record_scope details)
        else (Panic, s)
      else (Val (RErr AuditTrail.ERR_INVALID_EVENT), s)
    else (Val (RErr AuditTrail.ERR_UNAUTHORIZED_LOGGER), s).
Proof.
  unfold AuditTrail.log_event, define_public.
  unfold AuditTrail.set_audit_events, AuditTrail.set_patient_event_index,
    AuditTrail.set_patient_event_count.
  clar_run. simpl.
  unfold logged, AuditTrail.get_patient_audit_trail.
  destruct (bool_decide (contract_caller e = _)); [| done].
  destruct (0 <? len_str event_id); [| done].
  destruct (bool_decide (AuditTrail.audit_events s !! event_id = None));
    [| done].
  destruct (0 <? len_str patient_bns); [| done].
  destruct (0 <? len_str event_type); [| done].
  simpl.
  destruct (AuditTrail.patient_event_count s !! patient_bns) as [n|]; simpl.
  - by destruct (n + 1 <=? UINT_MAX).
  - done.
Qed.

(** C6.  For a call that passes the caller gate, [log-event] returns
    [(err u200)] when the event id is empty or already used, or the patient
    or the event type is empty.  A used event id makes the call fail for
    every caller, with the patient's count as before.  Every call either
    leaves the three maps untouched or returns [(ok true)] with the event
    record, the index entry at the prior count and the count plus one all
    written; and a valid call by the access-control contract does succeed. *)
Theorem log_event_validates_and_writes_atomically
    (deployer : string) (e : env) (event_id patient_bns : string)
    (provider : principal) (event_type : string) (record_scope : list string)
    (details : option string) (s : AuditTrail.store) :
  let r := AuditTrail.log_event deployer e event_id patient_bns provider
             event_type record_scope details s in
  let after := logged s (stacks_block_height e) event_id patient_bns provider
                 event_type record_scope details in
  (contract_caller e = AuditTrail.ACCESS_CONTROL deployer ->
   event_id = "" \/ is_Some (AuditTrail.audit_events s !! event_id)
   \/ patient_bns = "" \/ event_type = "" ->
   r = (Val (RErr AuditTrail.ERR_INVALID_EVENT), s))
  /\ (is_Some (AuditTrail.audit_events s !! event_id) ->
      (exists code, fst r = Val (RErr code))
      /\ AuditTrail.get_patient_audit_trail (snd r) patient_bns
         = AuditTrail.get_patient_audit_trail s patient_bns)
  /\ (r = (Val (ROk true), after) \/ (fst r <> Val (ROk true) /\ snd r = s))
  /\ (contract_caller e = AuditTrail.ACCESS_CONTROL deployer ->
      event_id <> "" -> AuditTrail.audit_events s !! event_id = None ->
      patient_bns <> "" -> event_type <> "" ->
      AuditTrail.get_patient_audit_trail s patient_bns < UINT_MAX ->
      r = (Val (ROk true), after)).
Proof.
  intros r after. subst r after. rewrite log_event_effect.
  repeat split.
  - intros Hc Hbad. rewrite bool_decide_eq_true_2 by done.
    assert ((0 <? len_str event_id)
            && bool_decide (AuditTrail.audit_events s !! event_id = None)
            && (0 <? len_str patient_bns) && (0 <? len_str event_type)
            = false) as ->; [| done].
    destruct Hbad as [->|[[ev Hev]|[->| ->]]]; simpl.
    + done.
    + rewrite Hev. rewrite bool_decide_eq_false_2 by done.
      by rewrite andb_false_r.
    + by rewrite andb_false_r.
    + by rewrite andb_false_r.
  - destruct H as [ev Hev]. rewrite Hev.
    rewrite (bool_decide_eq_false_2 (Some ev = None)) by done.
    rewrite andb_false_r. simpl. case_bool_decide; eauto.
  - destruct H as [ev Hev]. rewrite Hev.
    rewrite (bool_decide_eq_false_2 (Some ev = None)) by done.
    rewrite andb_false_r. simpl. by case_bool_decide.
  - repeat case_match; auto; right; by split.
  - intros Hc Hid Hfresh Hp Ht Hn.
    rewrite bool_decide_eq_true_2 by done.
    apply len_str_pos in Hid, Hp, Ht. rewrite Hid, Hp, Ht, Hfresh.
    rewrite bool_decide_eq_true_2 by done. simpl.
    assert ((AuditTrail.get_patient_audit_trail s patient_bns + 1 <=? UINT_MAX)
            = true) as -> by (apply N.leb_le; lia).
    done.
Qed.

Lemma log_event_validates_and_writes_atomically_witness :
  AuditTrail.log_event "SP1" ledger_call_env "evt-1" "patient-1"
    (StandardPrincipal "SP3") "access_used" ["lab-results"] None
    audit_store_one
  = (Val (RErr 200), audit_store_one)
  /\ AuditTrail.log_event "SP1" ledger_call_env "evt-2" "patient-1"
       (StandardPrincipal "SP3") "access_used" ["lab-results"] None
       audit_store_one
     = (Val (ROk true),
        logged audit_store_one 20 "evt-2" "patient-1" (StandardPrincipal "SP3")
          "access_used" ["lab-results"] None).
Proof.
  split.
  - apply (log_event_validates_and_writes_atomically "SP1" ledger_call_env
             "evt-1" "patient-1" (StandardPrincipal "SP3") "access_used"
             ["lab-results"] None audit_store_one).
    + reflexivity.
    + right; left. vm_compute. eauto.
  - apply (log_event_validates_and_writes_atomically "SP1" ledger_call_env
             "evt-2" "patient-1" (StandardPrincipal "SP3") "access_used"
             ["lab-results"] None audit_store_one).
    + reflexivity.
    + discriminate.
    + vm_compute. reflexivity.
    + discriminate.
    + discriminate.
    + vm_compute. reflexivity.
Defined.

(** ** The registry: net effect of each entry point *)

Section RegistryEffects.
Import ProviderVerification.
Variable deployer : string.
Implicit Types (e : env) (s : store) (provider : principal).

Ltac registry_unfold :=
  unfold register_provider, update_provider_credentials, suspend_provider,
    reactivate_provider, add_credential_type, record_provider_activity,
    define_public, set_provider_credentials, set_credential_verifications,
    set_provider_status, set_valid_credential_types.

Lemma register_provider_effect e provider license_number credential_types
    expires_at issuing_authority credential_hash s :
  register_provider deployer e provider license_number credential_types
    expires_at issuing_authority credential_hash s
  = if bool_decide (tx_sender e = CONTRACT_OWNER deployer) then
      if bool_decide (provider_credentials s !! provider = None) then
        if stacks_block_height e <? expires_at then
          if stacks_block_height e + MIN_CREDENTIAL_VALIDITY_BLOCKS
             <=? UINT_MAX then
            if stacks_block_height e + MIN_CREDENTIAL_VALIDITY_BLOCKS
               <? expires_at then
              if validate_credential_types s credential_types then
                if 0 <? len_str credential_hash then
                  (Val (ROk true),
                   registered s e provider license_number credential_types
                     expires_at issuing_authority credential_hash)
                else (Val (RErr ERR_INVALID_CREDENTIALS), s)
              else (Val (RErr ERR_INVALID_CREDENTIAL_TYPE), s)
            else (Val (RErr ERR_INVALID_EXPIRY_DATE), s)
          else (Panic, s)
        else (Val (RErr ERR_INVALID_EXPIRY_DATE), s)
      else (Val (RErr ERR_PROVIDER_ALREADY_EXISTS), s)
    else (Val (RErr ERR_NOT_AUTHORIZED), s).
Proof.
  registry_unfold. clar_run. simpl.
  repeat (case_match; simpl; simplify_eq; try done).
Qed.

Lemma update_provider_credentials_effect e provider new_expires_at
    new_credential_types s :
  update_provider_credentials deployer e provider new_expires_at
    new_credential_types s
  = if bool_decide (tx_sender e = CONTRACT_OWNER deployer) then
      match provider_credentials s !! provider with
      | Some c =>
          if stacks_block_height e <? new_expires_at then
            if validate_credential_types s new_credential_types then
              (Val (ROk true),
               with_credentials s provider
                 (mkCredentials (license_number c) new_credential_types
                    (issued_at c) new_expires_at (issuing_authority c)
                    (verification_status c) (stacks_block_height e)
                    (suspension_reason c)))
            else (Val (RErr ERR_INVALID_CREDENTIAL_TYPE), s)
          else (Val (RErr ERR_INVALID_EXPIRY_DATE), s)
      | None => (Val (RErr ERR_PROVIDER_NOT_FOUND), s)
      end
    else (Val (RErr ERR_NOT_AUTHORIZED), s).
Proof.
  registry_unfold. clar_run. simpl.
  destruct (bool_decide (tx_sender e = _)); [| done].
  destruct (provider_credentials s !! provider) as [c|] eqn:Hc.
  - rewrite bool_decide_eq_true_2 by eauto. clar_run. simpl.
    repeat (case_match; simpl; simplify_eq; try done).
  - rewrite bool_decide_eq_false_2; [done | by intros [? [=]]].
Qed.

Lemma suspend_provider_effect e provider reason s :
  suspend_provider deployer e provider reason s
  = if bool_decide (tx_sender e = CONTRACT_OWNER deployer) then
      match provider_status s !! provider with
      | Some st =>
          match provider_credentials s !! provider with
          | Some c =>
              (Val (ROk true),
               with_credentials
                 (with_status s provider
                    (mkStatusInfo (registration_date st) (last_activity st)
                       (access_count st) "suspended" (tx_sender e)))
                 provider
                 (mkCredentials (license_number c) (credential_types c)
                    (issued_at c) (expires_at c) (issuing_authority c)
                    (verification_status c) (last_verified c) (Some reason)))
          | None => (Panic, s)
          end
      | None => (Val (RErr ERR_PROVIDER_NOT_FOUND), s)
      end
    else (Val (RErr ERR_NOT_AUTHORIZED), s).
Proof.
  registry_unfold. clar_run. simpl.
  destruct (bool_decide (tx_sender e = _)); [| done].
  destruct (provider_status s !! provider) as [st|] eqn:Hst.
  - rewrite bool_decide_eq_true_2 by eauto. clar_run. simpl.
    by destruct (provider_credentials s !! provider).
  - rewrite bool_decide_eq_false_2; [done | by intros [? [=]]].
Qed.

Lemma reactivate_provider_effect e provider s :
  reactivate_provider deployer e provider s
  = if bool_decide (tx_sender e = CONTRACT_OWNER deployer) then
      match provider_status s !! provider with
      | Some st =>
          if String.eqb (status st) "suspended" then
            match provider_credentials s !! provider with
            | Some c =>
                (Val (ROk true),
                 with_credentials
                   (with_status s provider
                      (mkStatusInfo (registration_date st) (last_activity st)
                         (access_count st) "active" (tx_sender e)))
                   provider
                   (mkCredentials (license_number c) (credential_types c)
                      (issued_at c) (expires_at c) (issuing_authority c)
                      (verification_status c) (last_verified c) None))
            | None => (Panic, s)
            end
          else (Val (RErr ERR_INVALID_CREDENTIALS), s)
      | None => (Val (RErr ERR_PROVIDER_NOT_FOUND), s)
      end
    else (Val (RErr ERR_NOT_AUTHORIZED), s).
Proof.
  registry_unfold. clar_run. simpl.
  destruct (bool_decide (tx_sender e = _)); [| done].
  destruct (provider_status s !! provider) as [st|]; [| done].
  destruct (String.eqb (status st) "suspended"); [| done].
  clar_run. simpl.
  by destruct (provider_credentials s !! provider).
Qed.

Lemma add_credential_type_effect e credential_type description
    required_for_access s :
  add_credential_type deployer e credential_type description
    required_for_access s
  = if bool_decide (tx_sender e = CONTRACT_OWNER deployer) then
      (Val (ROk true),
       mkStore (provider_credentials s) (verification_history s)
         (<[credential_type :=
              mkCredentialTypeInfo description required_for_access
                (stacks_block_height e)]> (valid_credential_types s))
         (credential_verifications s) (provider_status s))
    else (Val (RErr ERR_NOT_AUTHORIZED), s).
Proof.
  registry_unfold. clar_run. simpl.
  destruct (bool_decide (tx_sender e = _)); [| done].
  by clar_run.
Qed.

Lemma record_provider_activity_effect e provider s :
  record_provider_activity deployer e provider s
  = if bool_decide (contract_caller e = ACCESS_CONTROL deployer) then
      match provider_status s !! provider with
      | Some st =>
          if access_count st + 1 <=? UINT_MAX then
            (Val (ROk true),
             with_status s provider (active_at st (stacks_block_height e)))
          else (Panic, s)
      | None => (Val (RErr ERR_PROVIDER_NOT_FOUND), s)
      end
    else (Val (RErr ERR_NOT_AUTHORIZED), s).
Proof.
  registry_unfold. clar_run. simpl.
  destruct (bool_decide (contract_caller e = _)); [| done].
  destruct (provider_status s !! provider) as [st|]; [| done].
  clar_run. by destruct (access_count st + 1 <=? UINT_MAX).
Qed.

End RegistryEffects.

(** ** Renewal *)

(** The expiry rule of [update-provider-credentials] as the contract has it:
    for the owner and a registered provider, the call returns [(err u307)]
    exactly when the new expiry is not above the current height; the types
    are checked by the same [validate-credential-types] as at registration. *)
Lemma update_provider_credentials_expiry_rule
    (deployer : string) (e : env) (provider : principal) (new_expires_at : N)
    (new_credential_types : list string) (s : ProviderVerification.store) :
  tx_sender e = ProviderVerification.CONTRACT_OWNER deployer ->
  is_Some (ProviderVerification.provider_credentials s !! provider) ->
  (ProviderVerification.update_provider_credentials deployer e provider
     new_expires_at new_credential_types s
   = (Val (RErr ProviderVerification.ERR_INVALID_EXPIRY_DATE), s)
   <-> new_expires_at <= stacks_block_height e)
  /\ (stacks_block_height e < new_expires_at ->
      ProviderVerification.validate_credential_types s new_credential_types
      = false ->
      ProviderVerification.update_provider_credentials deployer e provider
        new_expires_at new_credential_types s
      = (Val (RErr ProviderVerification.ERR_INVALID_CREDENTIAL_TYPE), s)).
Proof.
  intros Ho [c Hc]. rewrite update_provider_credentials_effect.
  rewrite bool_decide_eq_true_2 by done. rewrite Hc.
  destruct (N.ltb_spec (stacks_block_height e) new_expires_at) as [Hlt|Hge].
  - split.
    + split; [| lia].
      destruct (ProviderVerification.validate_credential_types _ _);
        discriminate.
    + by intros _ ->.
  - split; [done | lia].
Qed.

(** C9.  At height 100 the registry rejects a registration with expiry 101
    with [(err u307)] (101 is not above 100 + 144), yet
    [update-provider-credentials] accepts the same expiry at the same height
    for a registered provider and stores it: the renewal path checks only
    that the expiry is above the current height, not the validity window
    that registration enforces. *)
Theorem update_provider_credentials_skips_validity_window :
  ProviderVerification.register_provider "SP1" owner_env
    (StandardPrincipal "SP4") "LIC-002" ["medical-license"] 101
    "State Medical Board" "def456" registry_with_provider
  = (Val (RErr ProviderVerification.ERR_INVALID_EXPIRY_DATE),
     registry_with_provider)
  /\ exists s',
       ProviderVerification.update_provider_credentials "SP1" owner_env
         (StandardPrincipal "SP3") 101 ["medical-license"]
         registry_with_provider
       = (Val (ROk true), s')
       /\ ProviderVerification.expires_at
            <$> ProviderVerification.provider_credentials s'
                !! StandardPrincipal "SP3"
          = Some 101.
Proof.
  split.
  - rewrite register_provider_effect. reflexivity.
  - rewrite update_provider_credentials_effect.
    eexists. split; [reflexivity |]. reflexivity.
Qed.

(** ** The ledger: net effect of each entry point *)

Section LedgerEffects.
Import AccessControl.
Variable deployer : string.
Implicit Types (e : env) (c : chain) (provider : principal).

Ltac ledger_unfold :=
  unfold grant_access, grant_access_part_008, revoke_access, use_access,
    approve_provider_access, revoke_provider_consent, define_public,
    set_access_grants, set_patient_consents.

(** A [contract-call?] through the constant aborts, whatever follows it. *)
Lemma contract_call_constant {A B} (m : clar ProviderVerification.store A)
    (k : A -> clar chain B) c :
  bind (contract_call PROVIDER_VERIFICATION_CONTRACT m) k c = (Panic, c).
Proof. reflexivity. Qed.

Lemma grant_access_effect e provider patient_bns expiry_block record_scope
    max_accesses c :
  grant_access deployer e provider patient_bns expiry_block record_scope
    max_accesses c
  = (Panic, c).
Proof.
  ledger_unfold. by rewrite contract_call_constant.
Qed.

Lemma grant_access_part_008_effect e provider patient_bns expiry_block
    record_scope max_accesses c :
  grant_access_part_008 deployer e provider patient_bns expiry_block
    record_scope max_accesses c
  = (Panic, c).
Proof.
  ledger_unfold. by rewrite contract_call_constant.
Qed.

Lemma revoke_access_effect e provider patient_bns c :
  revoke_access e provider patient_bns c
  = match access_grants (ledger c) !! (patient_bns, provider) with
    | Some g =>
        (Val (ROk true), with_grant c (patient_bns, provider) (revoked g))
    | None => (Val (RErr ERR_GRANT_NOT_FOUND), c)
    end.
Proof.
  ledger_unfold. clar_run.
  by destruct (access_grants (ledger c) !! (patient_bns, provider)).
Qed.

Lemma use_access_effect e provider patient_bns c :
  use_access deployer e provider patient_bns c
  = match has_access e (ledger c) provider patient_bns with
    | ROk _ => (Panic, c)
    | RErr code => (Val (RErr code), c)
    end.
Proof.
  ledger_unfold. clar_run.
  destruct (has_access e (ledger c) provider patient_bns); [| done].
  destruct (access_grants (ledger c) !! (patient_bns, provider)) as [g|];
    [| done].
  clar_run.
  destruct (access_count g + 1 <=? UINT_MAX); [| done].
  by rewrite contract_call_constant.
Qed.

Lemma approve_provider_access_effect e provider record_scope expires_at c :
  approve_provider_access e provider record_scope expires_at c
  = if bool_decide (patient_consents (ledger c) !! (tx_sender e, provider)
                    = None) then
      if 0 <? len_list record_scope then
        (Val (ROk true),
         with_consent c (tx_sender e, provider)
           (mkConsent CONSENT_APPROVED record_scope (stacks_block_height e)
              expires_at None None))
      else (Val (RErr ERR_INVALID_SCOPE), c)
    else (Val (RErr ERR_INVALID_GRANT), c).
Proof.
  ledger_unfold. clar_run.
  destruct (bool_decide _); [| done].
  by destruct (0 <? len_list record_scope).
Qed.

Lemma revoke_provider_consent_effect e provider c :
  revoke_provider_consent e provider c
  = match patient_consents (ledger c) !! (tx_sender e, provider) with
    | Some v =>
        (Val (ROk true),
         with_consent c (tx_sender e, provider)
           (mkConsent CONSENT_REVOKED (consent_record_scope v)
              (consent_given_at v) (consent_expires_at v)
              (Some (stacks_block_height e)) (Some (tx_sender e))))
    | None => (Val (RErr ERR_CONSENT_NOT_FOUND), c)
    end.
Proof.
  ledger_unfold. clar_run.
  by destruct (patient_consents (ledger c) !! (tx_sender e, provider)).
Qed.

End LedgerEffects.

(** ** What one transaction does to each contract's maps *)

Lemma call_registry_frame {A} (m : clar ProviderVerification.store A)
    (c : AccessControl.chain) :
  AccessControl.ledger (snd (AccessControl.call_registry m c))
  = AccessControl.ledger c
  /\ AccessControl.audit (snd (AccessControl.call_registry m c))
     = AccessControl.audit c.
Proof.
  unfold AccessControl.call_registry.
  by destruct (m (AccessControl.registry c)).
Qed.

Lemma call_audit_frame {A} (m : clar AuditTrail.store A)
    (c : AccessControl.chain) :
  AccessControl.ledger (snd (call_audit m c)) = AccessControl.ledger c
  /\ AccessControl.registry (snd (call_audit m c))
     = AccessControl.registry c.
Proof.
  unfold call_audit. by destruct (m (AccessControl.audit c)).
Qed.

Lemma exec_grants_step (deployer : string) (rev : revision)
    (t : transaction) (c : AccessControl.chain) :
  grants_step deployer rev t c
    (AccessControl.access_grants
       (AccessControl.ledger (apply_tx deployer rev c t))).
Proof.
  unfold apply_tx.
  assert (Hfail : committed (exec deployer rev t c).1 = false ->
                  (exec deployer rev t c).2 = c ->
                  grants_step deployer rev t c
                    (AccessControl.access_grants
                       (AccessControl.ledger (exec deployer rev t c).2))).
  { intros Hno Hsame. apply grants_same; [by left | by rewrite Hsame]. }
  assert (Hsucc : forall c', exec deployer rev t c = (Val (ROk true), c') ->
                  succeeds deployer rev t c = true).
  { intros c' Hc'. unfold succeeds. by rewrite Hc'. }
  destruct t as [sn h [p l ts x a hs|p x ts|p r0|p|ty d r0|p|i b p ty sc d
                       |p sc x|p|p b x sc m|p b|p b]];
    unfold exec in *; cbn [entry] in *.
  1-6: apply grants_same;
         [right; intros; discriminate
         | by rewrite (proj1 (call_registry_frame _ _))].
  - apply grants_same;
      [right; intros; discriminate
      | by rewrite (proj1 (call_audit_frame _ _))].
  - apply grants_same; [right; intros; discriminate |].
    destruct rev; [done |].
    rewrite approve_provider_access_effect.
    by repeat case_match.
  - apply grants_same; [right; intros; discriminate |].
    destruct rev; [done |].
    rewrite revoke_provider_consent_effect.
    by repeat case_match.
  - apply grants_same; [right; intros; discriminate |].
    destruct rev; unfold grant_access_of;
      by rewrite ?grant_access_part_008_effect, ?grant_access_effect.
  - set (t := mkTx sn h (RevokeAccess p b)) in *.
    rewrite revoke_access_effect in *.
    destruct (AccessControl.access_grants (AccessControl.ledger c) !! (b, p))
      as [g|] eqn:Hg; [| by apply Hfail].
    eapply grants_revoked; [done | by eapply Hsucc | done | done].
  - apply grants_same; [right; intros; discriminate |].
    rewrite use_access_effect. by case_match.
Qed.

Lemma run_cons (deployer : string) (rev : revision) (t : transaction)
    (ts : list transaction) (c : AccessControl.chain) :
  run deployer rev (t :: ts) c
  = run deployer rev ts (apply_tx deployer rev c t).
Proof. reflexivity. Qed.

(** ** Revocation *)

Lemma has_access_revoked (e : env) (s : AccessControl.store)
    (provider : principal) (patient_bns : string) (g : AccessControl.grant) :
  AccessControl.access_grants s !! (patient_bns, provider) = Some g ->
  AccessControl.status g = "revoked" ->
  AccessControl.has_access e s provider patient_bns
  = RErr (if AccessControl.expiry_block g <? stacks_block_height e
          then AccessControl.ERR_GRANT_EXPIRED
          else AccessControl.ERR_INVALID_GRANT).
Proof.
  intros Hg Hst. unfold AccessControl.has_access. rewrite Hg, Hst. simpl.
  by case_match.
Qed.

Lemma revoked_step (deployer : string) (rev : revision)
    (provider : principal) (patient_bns : string) (t : transaction)
    (c : AccessControl.chain) (g : AccessControl.grant) :
  AccessControl.access_grants (AccessControl.ledger c)
  !! (patient_bns, provider) = Some g ->
  AccessControl.status g = "revoked" ->
  not_regranted deployer rev provider patient_bns t c ->
  exists g',
    AccessControl.access_grants
      (AccessControl.ledger (apply_tx deployer rev c t))
    !! (patient_bns, provider) = Some g'
    /\ AccessControl.status g' = "revoked".
Proof.
  intros Hg Hst Hkeep.
  destruct (exec_grants_step deployer rev t c)
    as [_ ->|p b g0 Hentry _ Hg0 ->]; [by eauto |].
  destruct (decide ((b, p) = (patient_bns, provider))) as [[= -> ->]|Hne].
  - rewrite lookup_insert_eq. eauto.
  - rewrite lookup_insert_ne by done. eauto.
Qed.

(** C3.  After a successful [revoke-access] on a pair, [has-access] on that
    pair returns an error, [(err u102)] or [(err u101)], never [(ok true)],
    at every height, after every sequence of later transactions in which no
    [grant-access] for the pair commits. *)
Theorem revoked_grant_has_no_access
    (deployer : string) (rev : revision) (e : env) (provider : principal)
    (patient_bns : string) (c c1 : AccessControl.chain) :
  AccessControl.revoke_access e provider patient_bns c
  = (Val (ROk true), c1) ->
  forall ts : list transaction,
    along deployer rev (not_regranted deployer rev provider patient_bns)
      ts c1 ->
    forall e' : env,
      AccessControl.has_access e'
        (AccessControl.ledger (run deployer rev ts c1)) provider patient_bns
      = RErr AccessControl.ERR_GRANT_EXPIRED
      \/ AccessControl.has_access e'
           (AccessControl.ledger (run deployer rev ts c1)) provider
           patient_bns
         = RErr AccessControl.ERR_INVALID_GRANT.
Proof.
  intros Hrev ts Hts e'.
  rewrite revoke_access_effect in Hrev.
  destruct (AccessControl.access_grants (AccessControl.ledger c)
            !! (patient_bns, provider)) as [g|] eqn:Hg; [| discriminate].
  injection Hrev as <-.
  assert (exists g1,
            AccessControl.access_grants
              (AccessControl.ledger
                 (with_grant c (patient_bns, provider) (revoked g)))
            !! (patient_bns, provider) = Some g1
            /\ AccessControl.status g1 = "revoked") as Hinv.
  { exists (revoked g). split; [apply lookup_insert_eq | done]. }
  revert Hts Hinv.
  generalize (with_grant c (patient_bns, provider) (revoked g)) as c1.
  induction ts as [|t ts IH]; intros c1 Hts (g1 & Hg1 & Hst1).
  - simpl. rewrite (has_access_revoked _ _ _ _ g1) by done.
    case_match; auto.
  - destruct Hts as [Ht Hts]. rewrite run_cons.
    apply IH; [done |]. by eapply revoked_step.
Qed.

Lemma revoked_grant_has_no_access_witness :
  let c1 := snd (AccessControl.revoke_access (patient_env 115)
                   (StandardPrincipal "SP3") "patient-1" chain_granted) in
  AccessControl.has_access (patient_env 150)
    (AccessControl.ledger (run "SP1" Latest later_txs c1))
    (StandardPrincipal "SP3") "patient-1"
  = RErr AccessControl.ERR_GRANT_EXPIRED
  \/ AccessControl.has_access (patient_env 150)
       (AccessControl.ledger (run "SP1" Latest later_txs c1))
       (StandardPrincipal "SP3") "patient-1"
     = RErr AccessControl.ERR_INVALID_GRANT.
Proof.
  apply (revoked_grant_has_no_access "SP1" Latest (patient_env 115)
           (StandardPrincipal "SP3") "patient-1" chain_granted).
  - vm_compute. reflexivity.
  - vm_compute. repeat split; intros H; first [discriminate H | reflexivity].
Defined.

(** ** The usage budget *)


(** ** Grant duration *)

(** C5.  [grant-access] never reaches its checks of the expiry.  At height
    110, for the registered provider "SP3", a request whose expiry equals the
    current height and a request whose expiry lies more than
    [MAX-GRANT-DURATION] blocks ahead both abort on the [contract-call?] of
    [verify-provider], in the current and in the earlier revision: neither
    returns [(err u101)]. *)
Theorem grant_access_aborts_before_expiry_checks :
  AccessControl.grant_access "SP1" (patient_env 110)
    (StandardPrincipal "SP3") "patient-1" 110 ["lab-results"] None
    chain_registered
  = (Panic, chain_registered)
  /\ AccessControl.grant_access "SP1" (patient_env 110)
       (StandardPrincipal "SP3") "patient-1"
       (110 + AccessControl.MAX_GRANT_DURATION + 1) ["lab-results"] None
       chain_registered
     = (Panic, chain_registered)
  /\ AccessControl.grant_access_part_008 "SP1" (patient_env 110)
       (StandardPrincipal "SP3") "patient-1" 110 ["lab-results"] None
       chain_registered
     = (Panic, chain_registered)
  /\ AccessControl.grant_access_part_008 "SP1" (patient_env 110)
       (StandardPrincipal "SP3") "patient-1"
       (110 + AccessControl.MAX_GRANT_DURATION + 1) ["lab-results"] None
       chain_registered
     = (Panic, chain_registered).
Proof.
  split; [apply grant_access_effect |].
  split; [apply grant_access_effect |].
  split; apply grant_access_part_008_effect.
Qed.

(** ** What one transaction does to the registry *)

Lemma call_registry_snd {A} (m : clar ProviderVerification.store A)
    (c : AccessControl.chain) :
  AccessControl.registry (snd (AccessControl.call_registry m c))
  = snd (m (AccessControl.registry c)).
Proof.
  unfold AccessControl.call_registry.
  by destruct (m (AccessControl.registry c)).
Qed.

Lemma exec_registry_step (deployer : string) (rev : revision)
    (t : transaction) (c : AccessControl.chain) :
  registry_step deployer rev t c
    (AccessControl.registry (apply_tx deployer rev c t)).
Proof.
  unfold apply_tx.
  assert (Hsucc : forall c', exec deployer rev t c = (Val (ROk true), c') ->
                  succeeds deployer rev t c = true).
  { intros c' Hc'. unfold succeeds. by rewrite Hc'. }
  destruct t as [who h [p l ts x a hs|p x ts|p r0|p|ty d r0|p|i b p ty sc d
                       |p sc x|p|p b x sc m|p b|p b]];
    unfold exec in *; cbn [entry] in *.
  - rewrite call_registry_snd, register_provider_effect.
    repeat case_match; try by apply registry_same.
    eapply registry_registered; [done | by eapply bool_decide_eq_true_1 | done].
  - rewrite call_registry_snd, update_provider_credentials_effect.
    repeat case_match; try by apply registry_same.
    by eapply registry_renewed.
  - rewrite call_registry_snd, suspend_provider_effect.
    repeat case_match; try by apply registry_same.
    eapply registry_toggled; [done | done | by left | done].
  - unfold AccessControl.call_registry in *.
    rewrite reactivate_provider_effect in *.
    destruct (bool_decide _); [| by apply registry_same].
    destruct (ProviderVerification.provider_status _ !! p) as [st|] eqn:Hst;
      [| by apply registry_same].
    destruct (String.eqb _ _); [| by apply registry_same].
    destruct (ProviderVerification.provider_credentials _ !! p) as [cr|]
      eqn:Hcr; [| by apply registry_same].
    eapply registry_toggled; [done | done | | done].
    right. split; [done |]. by eapply Hsucc.
  - rewrite call_registry_snd, add_credential_type_effect.
    case_match; [by eapply registry_type_added | by apply registry_same].
  - rewrite call_registry_snd, record_provider_activity_effect.
    repeat case_match; by apply registry_same.
  - apply registry_same. by rewrite (proj2 (call_audit_frame _ _)).
  - apply registry_same. destruct rev; [done |].
    rewrite approve_provider_access_effect. by repeat case_match.
  - apply registry_same. destruct rev; [done |].
    rewrite revoke_provider_consent_effect. by repeat case_match.
  - apply registry_same. destruct rev; unfold grant_access_of;
      by rewrite ?grant_access_part_008_effect, ?grant_access_effect.
  - apply registry_same. rewrite revoke_access_effect. by case_match.
  - apply registry_same. rewrite use_access_effect. by case_match.
Qed.

(** ** Suspension *)

Lemma verify_provider_suspended (e : env) (r : ProviderVerification.store)
    (provider : principal) (st : ProviderVerification.status_info)
    (cr : ProviderVerification.credentials) :
  ProviderVerification.provider_status r !! provider = Some st ->
  ProviderVerification.status st = "suspended" ->
  ProviderVerification.provider_credentials r !! provider = Some cr ->
  ProviderVerification.verify_provider e r provider
  = RErr (if ProviderVerification.expires_at cr <? stacks_block_height e
          then ProviderVerification.ERR_CREDENTIALS_EXPIRED
          else ProviderVerification.ERR_PROVIDER_SUSPENDED).
Proof.
  intros Hst Hsusp Hcr. unfold ProviderVerification.verify_provider.
  rewrite Hst, Hcr, Hsusp. simpl. rewrite andb_false_r.
  by case_match.
Qed.

(** C7.  The owner suspends the registered provider "SP3" at height 150.
    At height 160 [verify-provider] returns [(err u304)], as the claim
    says.  A [grant-access] naming "SP3" at that height does not return
    [(err u104)]: in both revisions it aborts on the [contract-call?] of
    [verify-provider], before the answer of the registry is looked at. *)
Theorem grant_access_aborts_for_suspended_provider :
  ProviderVerification.suspend_provider "SP1" suspension_env
    (StandardPrincipal "SP3") "License under review"
    (AccessControl.registry chain_registered)
  = (Val (ROk true), registry_suspended)
  /\ ProviderVerification.verify_provider (patient_env 160)
       registry_suspended (StandardPrincipal "SP3")
     = RErr ProviderVerification.ERR_PROVIDER_SUSPENDED
  /\ AccessControl.grant_access "SP1" (patient_env 160)
       (StandardPrincipal "SP3") "patient-1" 700 ["lab-results"] None
       chain_suspended
     = (Panic, chain_suspended)
  /\ AccessControl.grant_access_part_008 "SP1" (patient_env 160)
       (StandardPrincipal "SP3") "patient-1" 700 ["lab-results"] None
       chain_suspended
     = (Panic, chain_suspended).
Proof.
  split; [| split].
  - rewrite suspend_provider_effect. vm_compute. reflexivity.
  - rewrite (verify_provider_suspended _ _ _
               (ProviderVerification.mkStatusInfo 100 100 0 "suspended"
                  (StandardPrincipal "SP1"))
               (ProviderVerification.mkCredentials "LIC-001"
                  ["medical-license"] 100 10100 "State Medical Board"
                  "verified" 100 (Some "License under review")));
      vm_compute; reflexivity.
  - split; [apply grant_access_effect | apply grant_access_part_008_effect].
Qed.

(** ** The audit log under transactions *)

(** No transaction writes to the audit log: [log-event] admits only the
    access-control contract as its caller, and that contract never calls it.
    The log of every state reached from the empty ledger is empty. *)
Lemma apply_tx_audit (deployer : string) (rev : revision) (t : transaction)
    (c : AccessControl.chain) :
  AccessControl.audit (apply_tx deployer rev c t) = AccessControl.audit c.
Proof.
  unfold apply_tx.
  destruct t as [who h [p l ts x a hs|p x ts|p r0|p|ty d r0|p|i b p ty sc d
                        |p sc x|p|p b x sc m|p b|p b]];
    unfold exec; cbn [entry].
  1-6: by rewrite (proj2 (call_registry_frame _ _)).
  - unfold call_audit. rewrite log_event_effect. by simpl.
  - destruct rev; [done |].
    rewrite approve_provider_access_effect. by repeat case_match.
  - destruct rev; [done |].
    rewrite revoke_provider_consent_effect. by repeat case_match.
  - destruct rev; unfold grant_access_of;
      by rewrite ?grant_access_part_008_effect, ?grant_access_effect.
  - rewrite revoke_access_effect. by case_match.
  - rewrite use_access_effect. by case_match.
Qed.

Lemma audit_log_stays_empty (deployer : string) (rev : revision)
    (ts : list transaction) :
  AccessControl.audit (run deployer rev ts AccessControl.empty_chain)
  = AuditTrail.empty_store.
Proof.
  assert (forall c, AccessControl.audit (run deployer rev ts c)
                    = AccessControl.audit c) as Hrun.
  { induction ts as [|t ts IH]; intros c; [done |].
    by rewrite run_cons, IH, apply_tx_audit. }
  by rewrite Hrun.
Qed.

(** ** Well-formed registries *)

Lemma registry_wf_step (deployer : string) (rev : revision) (t : transaction)
    (c : AccessControl.chain) :
  registry_wf (AccessControl.registry c) ->
  registry_wf (AccessControl.registry (apply_tx deployer rev c t)).
Proof.
  intros [Hcv Hvh]. unfold registry_wf.
  destruct (exec_registry_step deployer rev t c)
    as [->|p l ts x a hs _ Hfresh ->|p cr0 cr' Hcr0 ->
       |p st0 cr0 ns cr' Hst0 Hcr0 Hns ->|ty i ->]; simpl;
    (split; [| done]); try done.
  - intros q id. rewrite lookup_insert_is_Some.
    intros [[= <- <-]|[Hne Hq]]; rewrite lookup_insert_is_Some';
      [by left | right; eauto].
  - intros q id Hq. rewrite lookup_insert_is_Some'. right. eauto.
  - intros q id Hq. rewrite lookup_insert_is_Some'. right. eauto.
Qed.

Lemma registry_wf_run (deployer : string) (rev : revision)
    (ts : list transaction) :
  registry_wf
    (AccessControl.registry (run deployer rev ts AccessControl.empty_chain)).
Proof.
  assert (forall c, registry_wf (AccessControl.registry c) ->
                    registry_wf (AccessControl.registry
                                   (run deployer rev ts c))) as Hrun.
  { induction ts as [|t ts IH]; intros c Hwf; [done |].
    rewrite run_cons. apply IH. by apply registry_wf_step. }
  apply Hrun. split; [| done].
  intros p id [v Hv]. simpl in Hv. by rewrite lookup_empty in Hv.
Qed.

(** ** Registration *)

(** C8.  For the contract owner registering a provider that has no record
    (at a height where [height + 144] is a [uint]), [register-provider]
    returns [(err u307)] unless the expiry is above the current height and
    above the current height plus the 144-block validity window.  A
    successful call has such an expiry and leaves exactly this: the
    credential record with status "verified", the status record with status
    "active" and [access-count] 0, and one verification entry, under the key
    ([provider], "verification-id") of [credential-verifications]; nothing
    else changes.  Any other outcome leaves every map as it was, and a valid
    call does succeed.  In every state reached from the empty ledger the
    provider had no verification entry before, so the number of entries
    grows by exactly one; the map [verification-history] is never written. *)
Theorem register_provider_validates_expiry_and_writes_atomically
    (deployer : string) (e : env) (provider : principal)
    (license_number : string) (credential_types : list string)
    (expires_at : N) (issuing_authority credential_hash : string)
    (s : ProviderVerification.store) (rev : revision)
    (ts : list transaction) :
  let h := stacks_block_height e in
  let window := ProviderVerification.MIN_CREDENTIAL_VALIDITY_BLOCKS in
  let r := ProviderVerification.register_provider deployer e provider
             license_number credential_types expires_at issuing_authority
             credential_hash s in
  (tx_sender e = ProviderVerification.CONTRACT_OWNER deployer ->
   ProviderVerification.provider_credentials s !! provider = None ->
   h + window <= UINT_MAX ->
   ~ (h < expires_at /\ h + window < expires_at) ->
   r = (Val (RErr ProviderVerification.ERR_INVALID_EXPIRY_DATE), s))
  /\ (fst r = Val (ROk true) ->
      h < expires_at /\ h + window < expires_at
      /\ snd r
         = ProviderVerification.mkStore
             (<[provider :=
                  ProviderVerification.mkCredentials license_number
                    credential_types h expires_at issuing_authority
                    "verified" h None]>
                (ProviderVerification.provider_credentials s))
             (ProviderVerification.verification_history s)
             (ProviderVerification.valid_credential_types s)
             (<[(provider, "verification-id") :=
                  ProviderVerification.mkVerification (tx_sender e) h
                    credential_hash "verified" None]>
                (ProviderVerification.credential_verifications s))
             (<[provider :=
                  ProviderVerification.mkStatusInfo h h 0 "active"
                    (tx_sender e)]>
                (ProviderVerification.provider_status s)))
  /\ (fst r <> Val (ROk true) -> snd r = s)
  /\ (tx_sender e = ProviderVerification.CONTRACT_OWNER deployer ->
      ProviderVerification.provider_credentials s !! provider = None ->
      h + window < expires_at -> expires_at <= UINT_MAX ->
      ProviderVerification.validate_credential_types s credential_types
      = true ->
      credential_hash <> "" ->
      fst r = Val (ROk true))
  /\ (s = AccessControl.registry
             (run deployer rev ts AccessControl.empty_chain) ->
      fst r = Val (ROk true) ->
      (forall id,
         ProviderVerification.credential_verifications s !! (provider, id)
         = None)
      /\ size (ProviderVerification.credential_verifications (snd r))
         = S (size (ProviderVerification.credential_verifications s))
      /\ ProviderVerification.verification_history (snd r) = ∅).
Proof.
  intros h window r. subst h window r. rewrite register_provider_effect.
  unfold ProviderVerification.MIN_CREDENTIAL_VALIDITY_BLOCKS.
  repeat split.
  - intros Ho Hfresh Hfit Hbad.
    rewrite !bool_decide_eq_true_2 by done.
    destruct (N.ltb_spec (stacks_block_height e) expires_at); [| done].
    destruct (N.leb_spec (stacks_block_height e + 144) UINT_MAX); [| lia].
    destruct (N.ltb_spec (stacks_block_height e + 144) expires_at);
      [| done].
    exfalso. apply Hbad. lia.
  - revert H. repeat case_match; simpl; try done.
    intros _. by apply N.ltb_lt.
  - revert H. repeat case_match; simpl; try done.
    intros _. by apply N.ltb_lt.
  - revert H. repeat case_match; simpl; try done.
  - repeat case_match; simpl; try done.
  - intros Ho Hfresh Hexp Hfit Hval Hhash.
    rewrite !bool_decide_eq_true_2 by done.
    apply len_str_pos in Hhash. rewrite Hval, Hhash.
    destruct (N.ltb_spec (stacks_block_height e) expires_at); [| lia].
    destruct (N.leb_spec (stacks_block_height e + 144) UINT_MAX); [| lia].
    destruct (N.ltb_spec (stacks_block_height e + 144) expires_at);
      [done | lia].
  - intros id. subst s.
    destruct (registry_wf_run deployer rev ts) as [Hwf _].
    destruct (ProviderVerification.credential_verifications _ !! (provider, id))
      eqn:Hcv; [| done].
    destruct (Hwf provider id) as [cr Hcr]; [by rewrite Hcv |].
    revert H0. destruct (bool_decide (tx_sender e = _)); [| done].
    rewrite (bool_decide_eq_false_2 (_ = None)); [done | by rewrite Hcr].
  - subst s. destruct (registry_wf_run deployer rev ts) as [Hwf _].
    revert H0. destruct (bool_decide (tx_sender e = _)); [| done].
    case_bool_decide as Hfresh; [| done].
    repeat case_match; simpl; try done. intros _.
    apply map_size_insert_None.
    destruct (ProviderVerification.credential_verifications _
              !! (provider, "verification-id")) eqn:Hcv; [| done].
    destruct (Hwf provider "verification-id") as [cr Hcr];
      [by rewrite Hcv |].
    congruence.
  - subst s. destruct (registry_wf_run deployer rev ts) as [_ Hvh].
    revert H0. repeat case_match; simpl; try done.
Qed.

Lemma register_provider_validates_expiry_and_writes_atomically_witness :
  ProviderVerification.register_provider "SP1" owner_env
    (StandardPrincipal "SP3") "LIC-001" ["medical-license"] 200
    "State Medical Board" "abc123" registry_with_types
  = (Val (RErr 307), registry_with_types)
  /\ ProviderVerification.register_provider "SP1" owner_env
       (StandardPrincipal "SP3") "LIC-001" ["medical-license"] 10100
       "State Medical Board" "abc123" registry_with_types
     = (Val (ROk true), registry_with_provider)
  /\ size (ProviderVerification.credential_verifications
             registry_with_provider)
     = S (size (ProviderVerification.credential_verifications
                  registry_with_types)).
Proof.
  destruct (register_provider_validates_expiry_and_writes_atomically "SP1"
              owner_env (StandardPrincipal "SP3") "LIC-001"
              ["medical-license"] 10100 "State Medical Board" "abc123"
              registry_with_types Latest type_txs)
    as (_ & Hok & _ & Hrun & Hone).
  assert (fst (ProviderVerification.register_provider "SP1" owner_env
                 (StandardPrincipal "SP3") "LIC-001" ["medical-license"]
                 10100 "State Medical Board" "abc123" registry_with_types)
          = Val (ROk true)) as Hfst.
  { apply Hrun.
    - reflexivity.
    - reflexivity.
    - vm_compute. reflexivity.
    - vm_compute. discriminate.
    - vm_compute. reflexivity.
    - discriminate. }
  destruct (Hok Hfst) as (_ & _ & Hsnd).
  destruct (Hone eq_refl Hfst) as (_ & Hsize & _).
  split; [| split].
  - apply (register_provider_validates_expiry_and_writes_atomically "SP1"
             owner_env (StandardPrincipal "SP3") "LIC-001"
             ["medical-license"] 200 "State Medical Board" "abc123"
             registry_with_types Latest type_txs).
    + reflexivity.
    + reflexivity.
    + vm_compute. discriminate.
    + intros [_ H]. vm_compute in H. discriminate.
  - rewrite (surjective_pairing
               (ProviderVerification.register_provider "SP1" owner_env
                  (StandardPrincipal "SP3") "LIC-001" ["medical-license"]
                  10100 "State Medical Board" "abc123" registry_with_types)).
    rewrite Hfst, Hsnd. reflexivity.
  - rewrite Hsnd in Hsize. exact Hsize.
Defined.


(** * Further properties of the contracts *)

(** ** Credential types *)

Lemma filter_length_eq {A} (f : A -> bool) (l : list A) :
  length (List.filter f l) = length l <-> Forall (fun x => f x = true) l.
Proof.
  induction l as [|x l IH]; simpl.
  - split; [constructor | done].
  - pose proof (List.filter_length_le f l) as Hle.
    destruct (f x) eqn:Hx; simpl.
    + split.
      * intros [= Hlen]. constructor; [done | by apply IH].
      * intros Hall. inversion Hall; subst. f_equal. by apply IH.
    + split; [lia |]. intros Hall. inversion Hall; congruence.
Qed.

Lemma validate_credential_types_all
    (s : ProviderVerification.store) (types : list string) :
  ProviderVerification.validate_credential_types s types = true
  <-> forall t, In t types ->
        is_Some (ProviderVerification.valid_credential_types s !! t).
Proof.
  unfold ProviderVerification.validate_credential_types, len_list.
  rewrite N.eqb_eq, Nat2N.inj_iff.
  split.
  - intros Hlen t Hin. symmetry in Hlen.
    apply filter_length_eq in Hlen.
    rewrite List.Forall_forall in Hlen. specialize (Hlen t Hin).
    by apply bool_decide_eq_true_1 in Hlen.
  - intros Hall. symmetry. apply filter_length_eq.
    apply List.Forall_forall. intros t Hin.
    apply bool_decide_eq_true_2. by apply Hall.
Qed.

(** X1.  [validate-credential-types] accepts a list exactly when every tag
    in it has an entry in [valid-credential-types]; the empty list is
    accepted. *)
Theorem validate_credential_types_iff
    (s : ProviderVerification.store) (types : list string) :
  (ProviderVerification.validate_credential_types s types = true
   <-> forall t, In t types ->
         is_Some (ProviderVerification.valid_credential_types s !! t))
  /\ ProviderVerification.validate_credential_types s [] = true.
Proof.
  split; [apply validate_credential_types_all | done].
Qed.

Lemma valid_type_step (deployer : string) (rev : revision) (t : transaction)
    (c : AccessControl.chain) (ty : string) :
  is_Some (ProviderVerification.valid_credential_types
             (AccessControl.registry c) !! ty) ->
  is_Some (ProviderVerification.valid_credential_types
             (AccessControl.registry (apply_tx deployer rev c t)) !! ty).
Proof.
  intros Hty.
  destruct (exec_registry_step deployer rev t c)
    as [->|p l ts x a hs _ _ ->|p cr0 cr' _ ->
       |p st0 cr0 ns cr' _ _ _ ->|ty' i ->]; simpl; try done.
  rewrite lookup_insert_is_Some'. by right.
Qed.

(** X2.  No entry point removes a credential type: a tag that is valid stays
    valid after every sequence of transactions, and so a list of tags that
    [validate-credential-types] accepts is accepted ever after. *)
Theorem valid_credential_types_persist
    (deployer : string) (rev : revision) (ts : list transaction)
    (c : AccessControl.chain) (types : list string) :
  ProviderVerification.validate_credential_types (AccessControl.registry c)
    types = true ->
  ProviderVerification.validate_credential_types
    (AccessControl.registry (run deployer rev ts c)) types = true.
Proof.
  rewrite !validate_credential_types_all. intros Hall ty Hin.
  specialize (Hall ty Hin). clear Hin. revert c Hall.
  induction ts as [|t ts IH]; intros c Hty; [done |].
  rewrite run_cons. apply IH. by apply valid_type_step.
Qed.

Lemma valid_credential_types_persist_witness :
  ProviderVerification.validate_credential_types
    (AccessControl.registry (run "SP1" Latest later_txs chain_granted))
    ["medical-license"] = true.
Proof.
  apply (valid_credential_types_persist "SP1" Latest later_txs chain_granted
           ["medical-license"]).
  vm_compute. reflexivity.
Defined.

(** ** Provider records *)

Lemma registry_paired_step (deployer : string) (rev : revision)
    (t : transaction) (c : AccessControl.chain) :
  registry_paired (AccessControl.registry c) ->
  registry_paired (AccessControl.registry (apply_tx deployer rev c t)).
Proof.
  intros Hp q. specialize (Hp q).
  destruct (exec_registry_step deployer rev t c)
    as [->|p l ts x a hs _ _ ->|p cr0 cr' Hcr0 ->
       |p st0 cr0 ns cr' Hst0 Hcr0 _ ->|ty' i ->]; simpl;
    try done.
  - rewrite !lookup_insert_is_Some'. tauto.
  - rewrite lookup_insert_is_Some'. rewrite Hp.
    split; [by right | intros [<-|]; eauto].
  - rewrite !lookup_insert_is_Some'. tauto.
Qed.

Lemma registry_paired_run (deployer : string) (rev : revision)
    (ts : list transaction) :
  registry_paired
    (AccessControl.registry (run deployer rev ts AccessControl.empty_chain)).
Proof.
  assert (forall c, registry_paired (AccessControl.registry c) ->
                    registry_paired (AccessControl.registry
                                       (run deployer rev ts c))) as Hrun.
  { induction ts as [|t ts IH]; intros c Hp; [done |].
    rewrite run_cons. apply IH. by apply registry_paired_step. }
  apply Hrun. intros p. simpl. rewrite !lookup_empty.
  split; intros [? [=]].
Qed.

(** X3.  In every state reached from the empty ledger a provider has a
    status record exactly when it has a credential record.  So the
    [unwrap-panic] calls of [suspend-provider], [reactivate-provider] and
    [update-provider-credentials] never abort: these entry points always
    return a response. *)
Theorem provider_records_are_paired
    (deployer : string) (rev : revision) (ts : list transaction)
    (e : env) (provider : principal) (reason : string) (new_expires_at : N)
    (new_credential_types : list string) :
  let s := AccessControl.registry
             (run deployer rev ts AccessControl.empty_chain) in
  (is_Some (ProviderVerification.provider_status s !! provider)
   <-> is_Some (ProviderVerification.provider_credentials s !! provider))
  /\ fst (ProviderVerification.suspend_provider deployer e provider reason s)
     <> Panic
  /\ fst (ProviderVerification.reactivate_provider deployer e provider s)
     <> Panic
  /\ fst (ProviderVerification.update_provider_credentials deployer e
            provider new_expires_at new_credential_types s)
     <> Panic.
Proof.
  intros s. pose proof (registry_paired_run deployer rev ts provider) as Hp.
  fold s in Hp. split; [done |].
  rewrite suspend_provider_effect, reactivate_provider_effect,
    update_provider_credentials_effect.
  destruct (ProviderVerification.provider_status s !! provider) as [st|];
    destruct (ProviderVerification.provider_credentials s !! provider)
      as [cr|];
    try (by destruct (proj1 Hp) as [? [=]]; eauto);
    try (by destruct (proj2 Hp) as [? [=]]; eauto);
    repeat split; repeat case_match; done.
Qed.

Lemma credentials_step (deployer : string) (rev : revision) (t : transaction)
    (c : AccessControl.chain) (provider : principal) :
  is_Some (ProviderVerification.provider_credentials
             (AccessControl.registry c) !! provider) ->
  is_Some (ProviderVerification.provider_credentials
             (AccessControl.registry (apply_tx deployer rev c t))
           !! provider).
Proof.
  intros Hp.
  destruct (exec_registry_step deployer rev t c)
    as [->|p l ts x a hs _ _ ->|p cr0 cr' _ ->
       |p st0 cr0 ns cr' _ _ _ ->|ty' i ->]; simpl; try done;
    rewrite lookup_insert_is_Some'; by right.
Qed.

(** X4.  A credential record is never deleted: once a provider is
    registered, after every sequence of transactions it still is, and every
    further [register-provider] for it by the owner returns [(err u306)] and
    changes nothing. *)
Theorem registration_is_permanent
    (deployer : string) (rev : revision) (c : AccessControl.chain)
    (provider : principal) (ts : list transaction) (e : env)
    (license_number : string) (credential_types : list string)
    (expires_at : N) (issuing_authority credential_hash : string) :
  is_Some (ProviderVerification.provider_credentials
             (AccessControl.registry c) !! provider) ->
  tx_sender e = ProviderVerification.CONTRACT_OWNER deployer ->
  let s := AccessControl.registry (run deployer rev ts c) in
  is_Some (ProviderVerification.provider_credentials s !! provider)
  /\ ProviderVerification.register_provider deployer e provider
       license_number credential_types expires_at issuing_authority
       credential_hash s
     = (Val (RErr ProviderVerification.ERR_PROVIDER_ALREADY_EXISTS), s).
Proof.
  intros Hreg Ho s.
  assert (is_Some (ProviderVerification.provider_credentials s !! provider))
    as Hs.
  { subst s. revert c Hreg.
    induction ts as [|t ts IH]; intros c Hreg; [done |].
    rewrite run_cons. apply IH. by apply credentials_step. }
  split; [done |].
  rewrite register_provider_effect.
  rewrite bool_decide_eq_true_2 by done.
  rewrite bool_decide_eq_false_2; [done |].
  destruct Hs as [cr Hcr]. by rewrite Hcr.
Qed.

Lemma registration_is_permanent_witness :
  ProviderVerification.register_provider "SP1" owner_env
    (StandardPrincipal "SP3") "LIC-777" [] 99999 "Another Board" "ffff"
    (AccessControl.registry
       (run "SP1" Latest after_suspension_txs chain_suspended))
  = (Val (RErr 306),
     AccessControl.registry
       (run "SP1" Latest after_suspension_txs chain_suspended)).
Proof.
  apply (registration_is_permanent "SP1" Latest chain_suspended
           (StandardPrincipal "SP3") after_suspension_txs owner_env).
  - vm_compute. eauto.
  - reflexivity.
Defined.

(** ** Suspension and reactivation *)

(** X5.  Suspending a provider and then reactivating it (the owner, at any
    heights) is a round trip: the reactivation succeeds, the status record is
    back to "active" with its dates and counter untouched and the owner as
    [updated-by], the credential record is what it was with the suspension
    reason cleared, the other maps are unchanged, and [verify-provider]
    answers as it does on the credentials before the suspension whenever the
    status was "active" then. *)
Theorem suspend_then_reactivate_round_trip
    (deployer : string) (e1 e2 : env) (provider : principal)
    (reason : string) (s s1 : ProviderVerification.store) :
  ProviderVerification.suspend_provider deployer e1 provider reason s
  = (Val (ROk true), s1) ->
  tx_sender e2 = ProviderVerification.CONTRACT_OWNER deployer ->
  exists st cr,
    ProviderVerification.provider_status s !! provider = Some st
    /\ ProviderVerification.provider_credentials s !! provider = Some cr
    /\ ProviderVerification.reactivate_provider deployer e2 provider s1
       = (Val (ROk true),
          with_credentials
            (with_status s provider
               (ProviderVerification.mkStatusInfo
                  (ProviderVerification.registration_date st)
                  (ProviderVerification.last_activity st)
                  (ProviderVerification.access_count st) "active"
                  (tx_sender e2)))
            provider
            (ProviderVerification.mkCredentials
               (ProviderVerification.license_number cr)
               (ProviderVerification.credential_types cr)
               (ProviderVerification.issued_at cr)
               (ProviderVerification.expires_at cr)
               (ProviderVerification.issuing_authority cr)
               (ProviderVerification.verification_status cr)
               (ProviderVerification.last_verified cr) None))
    /\ (ProviderVerification.status st = "active" ->
        forall e : env,
          ProviderVerification.verify_provider e
            (snd (ProviderVerification.reactivate_provider deployer e2
                    provider s1)) provider
          = ProviderVerification.verify_provider e s provider).
Proof.
  intros Hsusp Ho. rewrite suspend_provider_effect in Hsusp.
  destruct (bool_decide (tx_sender e1 = _)); [| discriminate].
  destruct (ProviderVerification.provider_status s !! provider) as [st|]
    eqn:Hst; [| discriminate].
  destruct (ProviderVerification.provider_credentials s !! provider)
    as [cr|] eqn:Hcr; [| discriminate].
  injection Hsusp as <-. exists st, cr. split; [done |]. split; [done |].
  rewrite reactivate_provider_effect.
  rewrite bool_decide_eq_true_2 by done. simpl.
  rewrite !lookup_insert_eq. simpl.
  unfold with_credentials, with_status. simpl.
  rewrite !insert_insert_eq. split; [done |].
  intros Hact e. unfold ProviderVerification.verify_provider. simpl.
  rewrite !lookup_insert_eq, Hst, Hcr, Hact. done.
Qed.

Lemma suspend_then_reactivate_round_trip_witness :
  ProviderVerification.verify_provider (patient_env 200)
    (snd (ProviderVerification.reactivate_provider "SP1" owner_env
            (StandardPrincipal "SP3") registry_suspended))
    (StandardPrincipal "SP3")
  = ProviderVerification.verify_provider (patient_env 200)
      (AccessControl.registry chain_granted) (StandardPrincipal "SP3").
Proof.
  destruct (suspend_then_reactivate_round_trip "SP1" suspension_env owner_env
              (StandardPrincipal "SP3") "License under review"
              (AccessControl.registry chain_granted) registry_suspended)
    as (st & cr & Hst & _ & _ & Hverify).
  - vm_compute. reflexivity.
  - reflexivity.
  - apply Hverify. vm_compute in Hst. injection Hst as <-. reflexivity.
Defined.

(** X6.  [reactivate-provider] acts on a suspended provider only: for a
    provider whose status is anything else the owner gets [(err u302)] and
    nothing changes.  In particular a second reactivation right after a
    successful one fails. *)
Theorem reactivate_provider_needs_suspension
    (deployer : string) (e e' : env) (provider : principal)
    (s s1 : ProviderVerification.store) (st : ProviderVerification.status_info) :
  tx_sender e = ProviderVerification.CONTRACT_OWNER deployer ->
  ProviderVerification.provider_status s !! provider = Some st ->
  (ProviderVerification.status st <> "suspended" ->
   ProviderVerification.reactivate_provider deployer e provider s
   = (Val (RErr ProviderVerification.ERR_INVALID_CREDENTIALS), s))
  /\ (ProviderVerification.reactivate_provider deployer e provider s
      = (Val (ROk true), s1) ->
      tx_sender e' = ProviderVerification.CONTRACT_OWNER deployer ->
      ProviderVerification.reactivate_provider deployer e' provider s1
      = (Val (RErr ProviderVerification.ERR_INVALID_CREDENTIALS), s1)).
Proof.
  intros Ho Hst. rewrite !reactivate_provider_effect.
  rewrite bool_decide_eq_true_2 by done. rewrite Hst. split.
  - intros Hne.
    destruct (String.eqb_spec (ProviderVerification.status st) "suspended");
      done.
  - destruct (String.eqb _ _); [| discriminate].
    destruct (ProviderVerification.provider_credentials s !! provider)
      as [cr|]; [| discriminate].
    intros [= <-] Ho'. rewrite bool_decide_eq_true_2 by done. simpl.
    by rewrite lookup_insert_eq.
Qed.

Lemma reactivate_provider_needs_suspension_witness :
  ProviderVerification.reactivate_provider "SP1" owner_env
    (StandardPrincipal "SP3") (AccessControl.registry chain_granted)
  = (Val (RErr 302), AccessControl.registry chain_granted)
  /\ ProviderVerification.reactivate_provider "SP1" suspension_env
       (StandardPrincipal "SP3")
       (snd (ProviderVerification.reactivate_provider "SP1" owner_env
               (StandardPrincipal "SP3") registry_suspended))
     = (Val (RErr 302),
        snd (ProviderVerification.reactivate_provider "SP1" owner_env
               (StandardPrincipal "SP3") registry_suspended)).
Proof.
  split.
  - edestruct (reactivate_provider_needs_suspension "SP1" owner_env owner_env
                 (StandardPrincipal "SP3")
                 (AccessControl.registry chain_granted)
                 (AccessControl.registry chain_granted)) as [Hne _].
    + reflexivity.
    + vm_compute. reflexivity.
    + apply Hne. vm_compute. discriminate.
  - edestruct (reactivate_provider_needs_suspension "SP1" owner_env
                 suspension_env (StandardPrincipal "SP3") registry_suspended)
      as [_ Htwice].
    + reflexivity.
    + vm_compute. reflexivity.
    + apply Htwice; [vm_compute; reflexivity | reflexivity].
Defined.

(** ** Verification outcomes *)

Lemma verify_provider_ok_iff
    (e : env) (s : ProviderVerification.store) (provider : principal) :
  ProviderVerification.verify_provider e s provider = ROk true
  <-> exists cr st,
        ProviderVerification.provider_credentials s !! provider = Some cr
        /\ ProviderVerification.provider_status s !! provider = Some st
        /\ ProviderVerification.verification_status cr = "verified"
        /\ stacks_block_height e < ProviderVerification.expires_at cr
        /\ ProviderVerification.status st = "active".
Proof.
  unfold ProviderVerification.verify_provider. split.
  - destruct (ProviderVerification.provider_credentials s !! provider)
      as [cr|]; [| discriminate].
    destruct (ProviderVerification.provider_status s !! provider)
      as [st|]; [| discriminate].
    destruct (String.eqb_spec (ProviderVerification.verification_status cr)
                "verified"); simpl;
      [| repeat case_match; discriminate].
    destruct (N.ltb_spec (stacks_block_height e)
                (ProviderVerification.expires_at cr)); simpl;
      [| repeat case_match; discriminate].
    destruct (String.eqb_spec (ProviderVerification.status st) "active");
      simpl; [| repeat case_match; discriminate].
    intros _. eauto 10.
  - intros (cr & st & -> & -> & -> & Hlt & ->). simpl.
    apply N.ltb_lt in Hlt. by rewrite Hlt.
Qed.

(** X7.  [verify-provider] returns [(ok true)] exactly for a provider with
    both records, credential status "verified", an expiry above the current
    height and status "active".  Otherwise, with both records present, an
    expiry below the current height is reported as [(err u303)] whatever the
    status, so expiry hides a suspension; and at the height equal to the
    expiry an active, verified provider gets [(err u302)], neither success
    nor expiry. *)
Theorem verify_provider_outcomes
    (e : env) (s : ProviderVerification.store) (provider : principal) :
  (ProviderVerification.verify_provider e s provider = ROk true
   <-> exists cr st,
         ProviderVerification.provider_credentials s !! provider = Some cr
         /\ ProviderVerification.provider_status s !! provider = Some st
         /\ ProviderVerification.verification_status cr = "verified"
         /\ stacks_block_height e < ProviderVerification.expires_at cr
         /\ ProviderVerification.status st = "active")
  /\ (forall cr st,
        ProviderVerification.provider_credentials s !! provider = Some cr ->
        ProviderVerification.provider_status s !! provider = Some st ->
        (ProviderVerification.expires_at cr < stacks_block_height e ->
         ProviderVerification.verify_provider e s provider
         = RErr ProviderVerification.ERR_CREDENTIALS_EXPIRED)
        /\ (ProviderVerification.expires_at cr = stacks_block_height e ->
            ProviderVerification.status st = "active" ->
            ProviderVerification.verify_provider e s provider
            = RErr ProviderVerification.ERR_INVALID_CREDENTIALS)
        /\ (ProviderVerification.expires_at cr = stacks_block_height e ->
            ProviderVerification.status st <> "active" ->
            ProviderVerification.verify_provider e s provider
            = RErr ProviderVerification.ERR_PROVIDER_SUSPENDED)).
Proof.
  split; [apply verify_provider_ok_iff |].
  unfold ProviderVerification.verify_provider.
  intros cr st -> ->. repeat split.
  - intros Hexp.
    assert ((stacks_block_height e <? ProviderVerification.expires_at cr)
            = false) as -> by (apply N.ltb_ge; lia).
    rewrite andb_false_r. simpl.
    apply N.ltb_lt in Hexp. by rewrite Hexp.
  - intros Heq ->. rewrite Heq, N.ltb_irrefl, andb_false_r. done.
  - intros Heq Hne. rewrite Heq, N.ltb_irrefl, andb_false_r. simpl.
    by destruct (String.eqb_spec (ProviderVerification.status st) "active").
Qed.

Lemma verify_provider_outcomes_witness :
  ProviderVerification.verify_provider (patient_env 20000)
    registry_suspended (StandardPrincipal "SP3")
  = RErr 303
  /\ ProviderVerification.verify_provider (patient_env 10100)
       (AccessControl.registry chain_granted) (StandardPrincipal "SP3")
     = RErr 302
  /\ ProviderVerification.verify_provider (patient_env 10100)
       registry_suspended (StandardPrincipal "SP3")
     = RErr 304.
Proof.
  destruct (verify_provider_outcomes (patient_env 20000) registry_suspended
              (StandardPrincipal "SP3")) as [_ H1].
  destruct (verify_provider_outcomes (patient_env 10100)
              (AccessControl.registry chain_granted)
              (StandardPrincipal "SP3")) as [_ H2].
  destruct (verify_provider_outcomes (patient_env 10100) registry_suspended
              (StandardPrincipal "SP3")) as [_ H3].
  split; [| split].
  - eapply H1; [vm_compute; reflexivity | vm_compute; reflexivity
               | reflexivity].
  - eapply H2; [vm_compute; reflexivity | vm_compute; reflexivity
               | reflexivity | reflexivity].
  - eapply H3; [vm_compute; reflexivity | vm_compute; reflexivity
               | reflexivity | discriminate].
Defined.

(** ** Renewal and credential types of a provider *)

(** X8.  [update-provider-credentials] renews: when the owner gives a
    registered provider an expiry above the current height and a valid list
    of types, the call succeeds; afterwards an active, verified provider
    verifies at every height below the new expiry (also when the old
    credentials had expired), and [has-credential-type] answers for the new
    list of types, the old one being overwritten. *)
Theorem update_provider_credentials_renews
    (deployer : string) (e : env) (provider : principal) (new_expires_at : N)
    (new_credential_types : list string) (s : ProviderVerification.store)
    (cr : ProviderVerification.credentials)
    (st : ProviderVerification.status_info) :
  tx_sender e = ProviderVerification.CONTRACT_OWNER deployer ->
  ProviderVerification.provider_credentials s !! provider = Some cr ->
  ProviderVerification.provider_status s !! provider = Some st ->
  stacks_block_height e < new_expires_at ->
  ProviderVerification.validate_credential_types s new_credential_types
  = true ->
  exists s',
    ProviderVerification.update_provider_credentials deployer e provider
      new_expires_at new_credential_types s = (Val (ROk true), s')
    /\ (ProviderVerification.verification_status cr = "verified" ->
        ProviderVerification.status st = "active" ->
        forall e' : env,
          stacks_block_height e' < new_expires_at ->
          ProviderVerification.verify_provider e' s' provider = ROk true)
    /\ (forall t : string,
          ProviderVerification.has_credential_type s' provider t
          = ROk (bool_decide (t ∈ new_credential_types))).
Proof.
  intros Ho Hcr Hst Hexp Hval.
  rewrite update_provider_credentials_effect.
  rewrite bool_decide_eq_true_2 by done. rewrite Hcr, Hval.
  apply N.ltb_lt in Hexp as ->.
  eexists. split; [reflexivity |]. split.
  - intros Hver Hact e' He'.
    unfold ProviderVerification.verify_provider. simpl.
    rewrite lookup_insert_eq, Hst. simpl. rewrite Hver, Hact. simpl.
    apply N.ltb_lt in He'. by rewrite He'.
  - intros t. unfold ProviderVerification.has_credential_type. simpl.
    rewrite lookup_insert_eq. simpl. f_equal.
    apply bool_decide_ext. by rewrite index_of_is_Some, list_elem_of_In.
Qed.

Lemma update_provider_credentials_renews_witness :
  ProviderVerification.verify_provider (patient_env 20000)
    (AccessControl.registry chain_granted) (StandardPrincipal "SP3")
  = RErr 303
  /\ exists s',
       ProviderVerification.update_provider_credentials "SP1"
         (mkEnv (StandardPrincipal "SP1") (StandardPrincipal "SP1") 20000)
         (StandardPrincipal "SP3") 30000 []
         (AccessControl.registry chain_granted)
       = (Val (ROk true), s')
       /\ ProviderVerification.verify_provider (patient_env 20000) s'
            (StandardPrincipal "SP3") = ROk true
       /\ ProviderVerification.has_credential_type s'
            (StandardPrincipal "SP3") "medical-license" = ROk false.
Proof.
  split; [vm_compute; reflexivity |].
  edestruct (update_provider_credentials_renews "SP1"
               (mkEnv (StandardPrincipal "SP1") (StandardPrincipal "SP1") 20000)
               (StandardPrincipal "SP3") 30000 []
               (AccessControl.registry chain_granted))
    as (s' & Hrun & Hverify & Htypes).
  - reflexivity.
  - vm_compute. reflexivity.
  - vm_compute. reflexivity.
  - reflexivity.
  - reflexivity.
  - exists s'. split; [exact Hrun |]. split.
    + apply Hverify; reflexivity.
    + rewrite Htypes. reflexivity.
Defined.

(** X9.  [has-credential-type] is a membership test on the list stored at
    registration: after a successful [register-provider] it returns
    [(ok true)] for exactly the tags of that list, and for a provider without
    a credential record it returns [(err u301)]. *)
Theorem has_credential_type_after_registration
    (deployer : string) (e : env) (provider : principal)
    (license_number : string) (credential_types : list string)
    (expires_at : N) (issuing_authority credential_hash : string)
    (s s' : ProviderVerification.store) (t : string) :
  ProviderVerification.register_provider deployer e provider license_number
    credential_types expires_at issuing_authority credential_hash s
  = (Val (ROk true), s') ->
  ProviderVerification.has_credential_type s provider t
  = RErr ProviderVerification.ERR_PROVIDER_NOT_FOUND
  /\ ProviderVerification.has_credential_type s' provider t
     = ROk (bool_decide (t ∈ credential_types))
  /\ forall ty, In ty credential_types ->
       is_Some (ProviderVerification.valid_credential_types s' !! ty).
Proof.
  rewrite register_provider_effect.
  destruct (bool_decide (tx_sender e = _)); [| discriminate].
  case_bool_decide as Hfresh; [| discriminate].
  destruct (stacks_block_height e <? expires_at); [| discriminate].
  destruct (_ <=? UINT_MAX); [| discriminate].
  destruct (_ <? expires_at); [| discriminate].
  destruct (ProviderVerification.validate_credential_types s credential_types)
    eqn:Hval; [| discriminate].
  destruct (0 <? len_str credential_hash); [| discriminate].
  intros [= <-]. unfold ProviderVerification.has_credential_type.
  rewrite Hfresh. simpl. rewrite lookup_insert_eq. simpl.
  split; [done |]. split.
  - f_equal. apply bool_decide_ext.
    by rewrite index_of_is_Some, list_elem_of_In.
  - by apply validate_credential_types_all.
Qed.

Lemma has_credential_type_after_registration_witness :
  ProviderVerification.has_credential_type registry_with_types
    (StandardPrincipal "SP3") "medical-license"
  = RErr 301
  /\ ProviderVerification.has_credential_type registry_with_provider
       (StandardPrincipal "SP3") "medical-license"
     = ROk true
  /\ ProviderVerification.has_credential_type registry_with_provider
       (StandardPrincipal "SP3") "dea-registration"
     = ROk false.
Proof.
  destruct (has_credential_type_after_registration "SP1" owner_env
              (StandardPrincipal "SP3") "LIC-001" ["medical-license"] 10100
              "State Medical Board" "abc123" registry_with_types
              registry_with_provider "medical-license") as (H1 & H2 & _);
    [vm_compute; reflexivity |].
  destruct (has_credential_type_after_registration "SP1" owner_env
              (StandardPrincipal "SP3") "LIC-001" ["medical-license"] 10100
              "State Medical Board" "abc123" registry_with_types
              registry_with_provider "dea-registration") as (_ & H3 & _);
    [vm_compute; reflexivity |].
  split; [exact H1 |]. split; [rewrite H2 | rewrite H3]; reflexivity.
Defined.

(** ** The gated entry points *)

(** X10.  The two gated entry points cannot be driven by a transaction: sent
    by any signer, [record-provider-activity] returns [(err u300)] and
    [log-event] returns [(err u201)], whatever their arguments and the state,
    and nothing changes. *)
Theorem gated_entry_points_reject_transactions
    (deployer : string) (rev : revision) (who : string) (h : N)
    (c : AccessControl.chain) (provider : principal)
    (event_id patient_bns event_type : string) (record_scope : list string)
    (details : option string) :
  exec deployer rev (mkTx who h (RecordProviderActivity provider)) c
  = (Val (RErr ProviderVerification.ERR_NOT_AUTHORIZED), c)
  /\ exec deployer rev
       (mkTx who h (LogEvent event_id patient_bns provider event_type
                      record_scope details)) c
     = (Val (RErr AuditTrail.ERR_UNAUTHORIZED_LOGGER), c).
Proof.
  unfold exec, AccessControl.call_registry, call_audit. cbn [entry].
  rewrite record_provider_activity_effect, log_event_effect.
  rewrite !bool_decide_eq_false_2 by done.
  by destruct c.
Qed.

(** X11.  The audit log is never written: in every state reached from the
    empty ledger, whatever the transactions, [get-patient-audit-trail] is 0
    for every patient, and [get-event-details] and [get-patient-event-id]
    find nothing. *)
Theorem audit_log_is_never_written
    (deployer : string) (rev : revision) (ts : list transaction)
    (patient_bns event_id : string) (event_number : N) :
  let a := AccessControl.audit
             (run deployer rev ts AccessControl.empty_chain) in
  AuditTrail.get_patient_audit_trail a patient_bns = 0
  /\ AuditTrail.get_event_details a event_id = None
  /\ AuditTrail.get_patient_event_id a patient_bns event_number = None.
Proof.
  intros a. subst a. rewrite audit_log_stays_empty.
  unfold AuditTrail.get_patient_audit_trail, AuditTrail.get_event_details,
    AuditTrail.get_patient_event_id. simpl.
  by rewrite !lookup_empty.
Qed.

(** ** The audit log under sequences of calls *)

Lemma log_call_run_cases (deployer : string) (k : log_call)
    (s : AuditTrail.store) :
  (log_call_run deployer k s
   = (Val (ROk true),
      logged s (stacks_block_height (lc_env k)) (lc_event_id k)
        (lc_patient_bns k) (lc_provider k) (lc_event_type k)
        (lc_record_scope k) (lc_details k))
   /\ AuditTrail.audit_events s !! lc_event_id k = None
   /\ AuditTrail.get_patient_audit_trail s (lc_patient_bns k) < UINT_MAX)
  \/ (committed (fst (log_call_run deployer k s)) = false
      /\ snd (log_call_run deployer k s) = s).
Proof.
  unfold log_call_run. rewrite log_event_effect.
  destruct (bool_decide (contract_caller _ = _)); [| by right].
  destruct (0 <? len_str (lc_event_id k)); [| by right].
  case_bool_decide as Hfresh; [| by right].
  destruct (0 <? len_str (lc_patient_bns k)); [| by right].
  destruct (0 <? len_str (lc_event_type k)); [| by right]. simpl.
  destruct (N.leb_spec
              (AuditTrail.get_patient_audit_trail s (lc_patient_bns k) + 1)
              UINT_MAX); [| by right].
  left. repeat split; [done | lia].
Qed.

Lemma count_logged (s : AuditTrail.store) (h : N) (id p : string)
    (prov : principal) (ty : string) (sc : list string) (d : option string)
    (q : string) :
  AuditTrail.get_patient_audit_trail (logged s h id p prov ty sc d) q
  = AuditTrail.get_patient_audit_trail s q
    + (if bool_decide (p = q) then 1 else 0).
Proof.
  unfold AuditTrail.get_patient_audit_trail, logged. simpl.
  case_bool_decide as Hpq.
  - subst q. by rewrite lookup_insert_eq.
  - rewrite lookup_insert_ne by done. by rewrite N.add_0_r.
Qed.

Lemma audit_wf_logged (s : AuditTrail.store) (h : N) (id p : string)
    (prov : principal) (ty : string) (sc : list string) (d : option string) :
  audit_wf s ->
  AuditTrail.audit_events s !! id = None ->
  audit_wf (logged s h id p prov ty sc d).
Proof.
  intros (Hpos & Hev & Hinj) Hfresh.
  assert (Hnot : forall q i, AuditTrail.get_patient_event_id s q i <> Some id).
  { intros q i Hq. destruct (Hev _ _ _ Hq) as (ev & Hd & _).
    unfold AuditTrail.get_event_details in Hd. congruence. }
  assert (Hlook : forall q i,
            AuditTrail.get_patient_event_id (logged s h id p prov ty sc d) q i
            = if decide ((p, AuditTrail.get_patient_audit_trail s p) = (q, i))
              then Some id
              else AuditTrail.get_patient_event_id s q i).
  { intros q i. unfold AuditTrail.get_patient_event_id at 1, logged. simpl.
    by rewrite lookup_insert. }
  split; [| split].
  - intros q i. rewrite Hlook, count_logged.
    destruct (decide (_ = _)) as [[= <- <-]|Hne].
    + rewrite bool_decide_eq_true_2 by done. split; [lia | eauto].
    + rewrite Hpos. case_bool_decide as Hpq; [| lia].
      subst q. split; [lia |]. intros Hi.
      assert (i <> AuditTrail.get_patient_audit_trail s p) by congruence.
      lia.
  - intros q i id'. rewrite Hlook.
    unfold AuditTrail.get_event_details, logged. simpl.
    destruct (decide (_ = _)) as [[= <- <-]|Hne].
    + intros [= <-]. rewrite lookup_insert_eq. eauto.
    + intros Hq. destruct (Hev _ _ _ Hq) as (ev & Hd & Hp).
      exists ev. split; [| done].
      rewrite lookup_insert_ne; [done |].
      intros <-. by apply (Hnot q i).
  - intros p1 i1 p2 i2 id'. rewrite !Hlook.
    destruct (decide (_ = (p1, i1))) as [<-|Hne1];
      destruct (decide (_ = (p2, i2))) as [<-|Hne2]; try done.
    + intros [= <-] Hq. by destruct (Hnot _ _ Hq).
    + intros Hq [= <-]. by destruct (Hnot _ _ Hq).
    + apply Hinj.
Qed.

Lemma audit_wf_empty : audit_wf AuditTrail.empty_store.
Proof.
  unfold audit_wf, AuditTrail.get_patient_event_id,
    AuditTrail.get_patient_audit_trail, AuditTrail.empty_store. simpl.
  split; [| split].
  - intros p i. rewrite !lookup_empty. split; [intros [? [=]] | lia].
  - intros p i id. by rewrite lookup_empty.
  - intros p1 i1 p2 i2 id. by rewrite lookup_empty.
Qed.

Lemma audit_wf_log_all (deployer : string) (ks : list log_call) :
  forall s, audit_wf s -> audit_wf (log_all deployer ks s).
Proof.
  induction ks as [|k ks IH]; intros s Hwf; [done |].
  simpl. apply IH.
  destruct (log_call_run_cases deployer k s) as [(-> & Hfresh & _)|[_ ->]];
    [| done].
  simpl. by apply audit_wf_logged.
Qed.

(** X12.  The per-patient index of the audit log is consistent after every
    sequence of [log-event] calls, whoever makes them and whether they
    succeed: [get-patient-event-id] finds an id at exactly the positions
    below the patient's count, so a reader can page through
    [0 .. count - 1]; each id found belongs to a stored event of that
    patient; and no event is listed at two positions. *)
Theorem audit_index_is_consistent
    (deployer : string) (ks : list log_call) :
  let s := log_all deployer ks AuditTrail.empty_store in
  (forall p i,
     is_Some (AuditTrail.get_patient_event_id s p i)
     <-> i < AuditTrail.get_patient_audit_trail s p)
  /\ (forall p i id,
        AuditTrail.get_patient_event_id s p i = Some id ->
        exists ev,
          AuditTrail.get_event_details s id = Some ev
          /\ AuditTrail.patient_bns ev = p)
  /\ (forall p1 i1 p2 i2 id,
        AuditTrail.get_patient_event_id s p1 i1 = Some id ->
        AuditTrail.get_patient_event_id s p2 i2 = Some id ->
        (p1, i1) = (p2, i2)).
Proof.
  apply (audit_wf_log_all deployer ks AuditTrail.empty_store).
  apply audit_wf_empty.
Qed.

(** X13.  The audit log is append-only: a later sequence of [log-event]
    calls leaves every stored event as it was, leaves every index entry of a
    log built by such calls where it was, and never lowers a patient's
    count. *)
Theorem audit_log_is_append_only
    (deployer : string) (ks1 ks2 : list log_call) (id : string)
    (ev : AuditTrail.audit_event) (p : string) (i : N) :
  let s := log_all deployer ks1 AuditTrail.empty_store in
  let s' := log_all deployer ks2 s in
  (AuditTrail.get_event_details s id = Some ev ->
   AuditTrail.get_event_details s' id = Some ev)
  /\ (AuditTrail.get_patient_event_id s p i = Some id ->
      AuditTrail.get_patient_event_id s' p i = Some id)
  /\ AuditTrail.get_patient_audit_trail s p
     <= AuditTrail.get_patient_audit_trail s' p.
Proof.
  intros s s'. subst s'.
  assert (audit_wf s) as Hwf.
  { apply audit_wf_log_all, audit_wf_empty. }
  clearbody s. revert s Hwf.
  induction ks2 as [|k ks IH]; intros s Hwf; [by repeat split |].
  simpl.
  destruct (log_call_run_cases deployer k s) as [(Hrun & Hfresh & _)|[_ Hs]].
  - assert (audit_wf (snd (log_call_run deployer k s))) as Hwf'.
    { rewrite Hrun. simpl. by apply audit_wf_logged. }
    destruct (IH _ Hwf') as (IH1 & IH2 & IH3). rewrite Hrun in *. simpl in *.
    split; [| split].
    + intros Hd. apply IH1.
      unfold AuditTrail.get_event_details, logged in *. simpl.
      rewrite lookup_insert_ne; [done | congruence].
    + intros Hq. apply IH2.
      unfold AuditTrail.get_patient_event_id at 1, logged. simpl.
      rewrite lookup_insert_ne; [done |].
      intros [= <- <-].
      destruct Hwf as (Hpos & _).
      assert (AuditTrail.get_patient_audit_trail s (lc_patient_bns k)
              < AuditTrail.get_patient_audit_trail s (lc_patient_bns k))
        by (apply Hpos; eauto).
      lia.
    + rewrite count_logged in IH3. lia.
  - rewrite Hs. by apply IH.
Qed.

(** X14.  [get-patient-audit-trail] counts: after a sequence of [log-event]
    calls a patient's count has grown by the number of calls that logged an
    event of that patient, failed calls and other patients' events not
    counting. *)
Theorem audit_count_counts_logged_events
    (deployer : string) (ks : list log_call) (s : AuditTrail.store)
    (p : string) :
  AuditTrail.get_patient_audit_trail (log_all deployer ks s) p
  = AuditTrail.get_patient_audit_trail s p + logged_for deployer p ks s.
Proof.
  revert s. induction ks as [|k ks IH]; intros s; simpl.
  - by rewrite N.add_0_r.
  - rewrite IH.
    destruct (log_call_run_cases deployer k s) as [(Hrun & _ & _)|[Hno Hs]].
    + rewrite Hrun. simpl. rewrite count_logged.
      rewrite andb_true_r. lia.
    + rewrite Hs, Hno, andb_false_r. lia.
Qed.

Lemma audit_index_is_consistent_witness :
  let s := log_all "SP1" log_calls AuditTrail.empty_store in
  AuditTrail.get_patient_audit_trail s "patient-1" = 2
  /\ is_Some (AuditTrail.get_patient_event_id s "patient-1" 1)
  /\ AuditTrail.get_patient_event_id s "patient-1" 2 = None
  /\ exists ev,
       AuditTrail.get_event_details s "evt-3" = Some ev
       /\ AuditTrail.patient_bns ev = "patient-1".
Proof.
  intros s.
  destruct (audit_index_is_consistent "SP1" log_calls) as (Hpos & Hev & _).
  fold s in Hpos, Hev.
  split; [vm_compute; reflexivity |]. split; [| split].
  - apply Hpos. vm_compute. reflexivity.
  - destruct (AuditTrail.get_patient_event_id s "patient-1" 2) as [id|]
      eqn:Hid; [| reflexivity].
    assert (2 < AuditTrail.get_patient_audit_trail s "patient-1") as Hlt
      by (apply Hpos; rewrite Hid; eauto).
    vm_compute in Hlt. discriminate.
  - apply (Hev "patient-1" 1 "evt-3"). vm_compute. reflexivity.
Defined.

Lemma audit_log_is_append_only_witness :
  let s := log_all "SP1" log_calls AuditTrail.empty_store in
  let s' := log_all "SP1" more_log_calls s in
  AuditTrail.get_patient_event_id s' "patient-1" 0 = Some "evt-1"
  /\ AuditTrail.get_event_details s' "evt-1"
     = AuditTrail.get_event_details s "evt-1"
  /\ AuditTrail.get_patient_audit_trail s "patient-1"
     <= AuditTrail.get_patient_audit_trail s' "patient-1".
Proof.
  intros s s'.
  destruct (AuditTrail.get_event_details s "evt-1") as [ev|] eqn:Hd;
    [| vm_compute in Hd; discriminate].
  destruct (audit_log_is_append_only "SP1" log_calls more_log_calls "evt-1"
              ev "patient-1" 0) as (Hev & Hidx & Hcount).
  fold s in Hev, Hidx, Hcount. fold s' in Hev, Hidx, Hcount.
  split; [| split].
  - apply Hidx. vm_compute. reflexivity.
  - by apply Hev.
  - exact Hcount.
Defined.

(** ** Patient consent *)

(** X15.  The life of a consent record.  A patient without a record for a
    provider can approve with a non-empty scope; [has-patient-consent] then
    returns [(ok true)] while no expiry is set or the expiry is above the
    current height, and [(err u102)] from the expiry on.  After the patient's
    [revoke-provider-consent] it returns [(err u108)] at every height, and a
    new [approve-provider-access] for the pair is refused with [(err u101)],
    before the revocation as well as after it. *)
Theorem consent_lifecycle
    (e1 e2 e3 : env) (provider : principal) (record_scope : list string)
    (expires_at : option N) (c : AccessControl.chain) :
  AccessControl.patient_consents (AccessControl.ledger c)
  !! (tx_sender e1, provider) = None ->
  record_scope <> [] ->
  tx_sender e2 = tx_sender e1 ->
  tx_sender e3 = tx_sender e1 ->
  exists c1 c2,
    AccessControl.approve_provider_access e1 provider record_scope
      expires_at c = (Val (ROk true), c1)
    /\ (forall e : env,
          AccessControl.has_patient_consent e (AccessControl.ledger c1)
            (tx_sender e1) provider
          = match expires_at with
            | Some x => if stacks_block_height e <? x then ROk true
                        else RErr AccessControl.ERR_GRANT_EXPIRED
            | None => ROk true
            end)
    /\ (forall sc x,
          AccessControl.approve_provider_access e3 provider sc x c1
          = (Val (RErr AccessControl.ERR_INVALID_GRANT), c1))
    /\ AccessControl.revoke_provider_consent e2 provider c1
       = (Val (ROk true), c2)
    /\ (forall e : env,
          AccessControl.has_patient_consent e (AccessControl.ledger c2)
            (tx_sender e1) provider
          = RErr AccessControl.ERR_CONSENT_NOT_APPROVED)
    /\ (forall sc x,
          AccessControl.approve_provider_access e3 provider sc x c2
          = (Val (RErr AccessControl.ERR_INVALID_GRANT), c2)).
Proof.
  intros Hnone Hscope He2 He3.
  assert ((0 <? len_list record_scope) = true) as Hlen.
  { destruct record_scope; [done |]. apply N.ltb_lt. unfold len_list.
    simpl. lia. }
  eexists _, _. rewrite approve_provider_access_effect.
  rewrite bool_decide_eq_true_2 by done. rewrite Hlen.
  split; [reflexivity |]. split.
  { intros e. unfold AccessControl.has_patient_consent. simpl.
    by rewrite lookup_insert_eq. }
  split.
  { intros sc x. rewrite approve_provider_access_effect, He3. simpl.
    rewrite lookup_insert_eq. by rewrite bool_decide_eq_false_2. }
  rewrite revoke_provider_consent_effect, He2. simpl.
  rewrite lookup_insert_eq. simpl.
  split; [reflexivity |]. split.
  - intros e. unfold AccessControl.has_patient_consent. simpl.
    by rewrite lookup_insert_eq.
  - intros sc x. rewrite approve_provider_access_effect, He3. simpl.
    rewrite lookup_insert_eq. by rewrite bool_decide_eq_false_2.
Qed.

Lemma consent_lifecycle_witness :
  exists c1 c2,
    AccessControl.approve_provider_access (patient_env 200)
      (StandardPrincipal "SP3") ["imaging"] (Some 300) chain_granted
    = (Val (ROk true), c1)
    /\ AccessControl.has_patient_consent (patient_env 250)
         (AccessControl.ledger c1) (StandardPrincipal "SP2")
         (StandardPrincipal "SP3") = ROk true
    /\ AccessControl.has_patient_consent (patient_env 300)
         (AccessControl.ledger c1) (StandardPrincipal "SP2")
         (StandardPrincipal "SP3") = RErr 102
    /\ AccessControl.revoke_provider_consent (patient_env 260)
         (StandardPrincipal "SP3") c1 = (Val (ROk true), c2)
    /\ AccessControl.has_patient_consent (patient_env 270)
         (AccessControl.ledger c2) (StandardPrincipal "SP2")
         (StandardPrincipal "SP3") = RErr 108
    /\ AccessControl.approve_provider_access (patient_env 280)
         (StandardPrincipal "SP3") ["imaging"] None c2
       = (Val (RErr 101), c2).
Proof.
  destruct (consent_lifecycle (patient_env 200) (patient_env 260)
              (patient_env 280) (StandardPrincipal "SP3") ["imaging"]
              (Some 300) chain_granted)
    as (c1 & c2 & Happ & Hhas & _ & Hrev & Hhas2 & Hagain).
  - vm_compute. reflexivity.
  - discriminate.
  - reflexivity.
  - reflexivity.
  - exists c1, c2. repeat split; done.
Defined.

(** X16.  Consent records belong to the signer: [approve-provider-access]
    and [revoke-provider-consent] write only the record keyed by their own
    [tx-sender], so no other principal can change what
    [has-patient-consent] answers for a patient. *)
Theorem consent_is_keyed_by_signer
    (e e' : env) (patient provider provider' : principal)
    (record_scope : list string) (expires_at : option N)
    (c : AccessControl.chain) :
  tx_sender e <> patient ->
  AccessControl.has_patient_consent e'
    (AccessControl.ledger
       (snd (AccessControl.approve_provider_access e provider' record_scope
               expires_at c))) patient provider
  = AccessControl.has_patient_consent e' (AccessControl.ledger c) patient
      provider
  /\ AccessControl.has_patient_consent e'
       (AccessControl.ledger
          (snd (AccessControl.revoke_provider_consent e provider' c)))
       patient provider
     = AccessControl.has_patient_consent e' (AccessControl.ledger c) patient
         provider.
Proof.
  intros Hne.
  rewrite approve_provider_access_effect, revoke_provider_consent_effect.
  split.
  - destruct (bool_decide _); [| done].
    destruct (0 <? len_list record_scope); [| done].
    unfold AccessControl.has_patient_consent. simpl.
    rewrite lookup_insert_ne; [done | congruence].
  - destruct (AccessControl.patient_consents (AccessControl.ledger c)
              !! (tx_sender e, provider')); [| done].
    unfold AccessControl.has_patient_consent. simpl.
    rewrite lookup_insert_ne; [done | congruence].
Qed.

Lemma consent_is_keyed_by_signer_witness :
  AccessControl.has_patient_consent (patient_env 270)
    (AccessControl.ledger
       (snd (AccessControl.revoke_provider_consent (provider_env 265)
               (StandardPrincipal "SP3")
               (snd (AccessControl.approve_provider_access (patient_env 200)
                       (StandardPrincipal "SP3") ["imaging"] None
                       chain_granted)))))
    (StandardPrincipal "SP2") (StandardPrincipal "SP3")
  = AccessControl.has_patient_consent (patient_env 270)
      (AccessControl.ledger
         (snd (AccessControl.approve_provider_access (patient_env 200)
                 (StandardPrincipal "SP3") ["imaging"] None chain_granted)))
      (StandardPrincipal "SP2") (StandardPrincipal "SP3").
Proof.
  apply (consent_is_keyed_by_signer (provider_env 265) (patient_env 270)
           (StandardPrincipal "SP2") (StandardPrincipal "SP3")
           (StandardPrincipal "SP3") [] None).
  discriminate.
Defined.

(** ** Grants: request, check, revoke *)

(** X17.  [grant-access] and [use-access] never commit.  In both revisions
    [grant-access] aborts on every input and in every state: its first
    expression is a [contract-call?] through the constant.  [use-access]
    returns the error of [has-access] when that check fails and aborts when
    it passes.  Neither returns [(ok true)] and neither changes a map. *)
Theorem grant_and_use_never_commit
    (deployer : string) (rev : revision) (e : env) (provider : principal)
    (patient_bns : string) (expiry_block : N) (record_scope : list string)
    (max_accesses : option N) (c : AccessControl.chain) :
  grant_access_of deployer rev e provider patient_bns expiry_block
    record_scope max_accesses c = (Panic, c)
  /\ AccessControl.use_access deployer e provider patient_bns c
     = match AccessControl.has_access e (AccessControl.ledger c) provider
               patient_bns with
       | ROk _ => (Panic, c)
       | RErr code => (Val (RErr code), c)
       end
  /\ committed
       (fst (AccessControl.use_access deployer e provider patient_bns c))
     = false
  /\ snd (AccessControl.use_access deployer e provider patient_bns c) = c.
Proof.
  split.
  - destruct rev; unfold grant_access_of;
      [apply grant_access_part_008_effect | apply grant_access_effect].
  - rewrite use_access_effect. split; [done |]. by case_match.
Qed.

(** X18.  Consent and grants are separate: [approve-provider-access] and
    [revoke-provider-consent], whoever sends them and whether they succeed,
    leave the registry and every grant as they were, so [get-access-grant],
    [has-access] and [has-record-scope-access] answer as before.  Revoking a
    consent does not revoke a grant. *)
Theorem consent_calls_keep_grants
    (e e' : env) (provider p : principal) (record_scope : list string)
    (expires_at : option N) (patient_bns record_type : string)
    (c : AccessControl.chain) :
  let kept c' :=
    AccessControl.registry c' = AccessControl.registry c
    /\ AccessControl.get_access_grant (AccessControl.ledger c') p patient_bns
       = AccessControl.get_access_grant (AccessControl.ledger c) p
           patient_bns
    /\ AccessControl.has_access e' (AccessControl.ledger c') p patient_bns
       = AccessControl.has_access e' (AccessControl.ledger c) p patient_bns
    /\ AccessControl.has_record_scope_access e' (AccessControl.ledger c') p
         patient_bns record_type
       = AccessControl.has_record_scope_access e' (AccessControl.ledger c) p
           patient_bns record_type in
  kept (snd (AccessControl.approve_provider_access e provider record_scope
               expires_at c))
  /\ kept (snd (AccessControl.revoke_provider_consent e provider c)).
Proof.
  intros kept. subst kept. simpl.
  rewrite approve_provider_access_effect, revoke_provider_consent_effect.
  split; repeat case_match; done.
Qed.

Lemma grants_stay_empty (deployer : string) (rev : revision)
    (ts : list transaction) :
  forall c : AccessControl.chain,
    AccessControl.access_grants (AccessControl.ledger c) = ∅ ->
    AccessControl.access_grants (AccessControl.ledger (run deployer rev ts c))
    = ∅.
Proof.
  induction ts as [|t ts IH]; intros c Hc; [done |].
  rewrite run_cons. apply IH.
  destruct (exec_grants_step deployer rev t c)
    as [_ ->|p b g _ _ Hg ->]; [done |].
  by rewrite Hc, lookup_empty in Hg.
Qed.

(** X19.  No grant is ever created.  In every state reached from the empty
    ledger, whatever the transactions and in both revisions, the map of
    grants is empty: [get-access-grant] finds nothing, [has-access] and
    [has-record-scope-access] return [(err u103)] for every pair at every
    height, and [use-access] and [revoke-access] return [(err u103)] and
    change nothing. *)
Theorem no_grant_is_ever_created
    (deployer : string) (rev : revision) (ts : list transaction) (e : env)
    (provider : principal) (patient_bns record_type : string) :
  let c := run deployer rev ts AccessControl.empty_chain in
  AccessControl.get_access_grant (AccessControl.ledger c) provider
    patient_bns = None
  /\ AccessControl.has_access e (AccessControl.ledger c) provider patient_bns
     = RErr AccessControl.ERR_GRANT_NOT_FOUND
  /\ AccessControl.has_record_scope_access e (AccessControl.ledger c)
       provider patient_bns record_type
     = RErr AccessControl.ERR_GRANT_NOT_FOUND
  /\ AccessControl.use_access deployer e provider patient_bns c
     = (Val (RErr AccessControl.ERR_GRANT_NOT_FOUND), c)
  /\ AccessControl.revoke_access e provider patient_bns c
     = (Val (RErr AccessControl.ERR_GRANT_NOT_FOUND), c).
Proof.
  intros c.
  assert (AccessControl.access_grants (AccessControl.ledger c) = ∅) as Hc
    by (by apply grants_stay_empty).
  rewrite use_access_effect, revoke_access_effect.
  unfold AccessControl.get_access_grant, AccessControl.has_access,
    AccessControl.has_record_scope_access.
  by rewrite Hc, lookup_empty.
Qed.

(** X20.  The answers of [has-access] and [has-record-scope-access] on an
    existing grant.  [has-access] is [(ok true)] exactly when the status is
    "active", the expiry is above the current height and the usage budget
    is not used up; past the expiry it is [(err u102)] whatever the status
    and the budget, and at the height equal to the expiry it is
    [(err u101)].  [has-record-scope-access] agrees with a successful
    [has-access] on every record type of the scope, returns [(err u101)]
    for a type outside the scope, and reports an expired grant as
    [(err u101)], never as [(err u102)]. *)
Theorem access_check_outcomes
    (e : env) (s : AccessControl.store) (provider : principal)
    (patient_bns record_type : string) (g : AccessControl.grant) :
  AccessControl.access_grants s !! (patient_bns, provider) = Some g ->
  let h := stacks_block_height e in
  (AccessControl.has_access e s provider patient_bns = ROk true
   <-> AccessControl.status g = "active"
       /\ h < AccessControl.expiry_block g
       /\ forall m, AccessControl.max_accesses g = Some m ->
                    AccessControl.access_count g < m)
  /\ (AccessControl.expiry_block g < h ->
      AccessControl.has_access e s provider patient_bns
      = RErr AccessControl.ERR_GRANT_EXPIRED
      /\ AccessControl.has_record_scope_access e s provider patient_bns
           record_type
         = RErr AccessControl.ERR_INVALID_GRANT)
  /\ (AccessControl.expiry_block g = h ->
      AccessControl.has_access e s provider patient_bns
      = RErr AccessControl.ERR_INVALID_GRANT)
  /\ (AccessControl.has_access e s provider patient_bns = ROk true ->
      record_type ∈ AccessControl.record_scope g ->
      AccessControl.has_record_scope_access e s provider patient_bns
        record_type = ROk true)
  /\ (record_type ∉ AccessControl.record_scope g ->
      AccessControl.has_record_scope_access e s provider patient_bns
        record_type = RErr AccessControl.ERR_INVALID_GRANT).
Proof.
  intros Hg h. subst h.
  unfold AccessControl.has_access, AccessControl.has_record_scope_access.
  rewrite Hg.
  assert (Hscope : bool_decide
                     (is_Some (index_of (AccessControl.record_scope g)
                                 record_type))
                   = bool_decide (record_type ∈ AccessControl.record_scope g)).
  { apply bool_decide_ext. by rewrite index_of_is_Some, list_elem_of_In. }
  rewrite Hscope. clear Hscope.
  split; [| split; [| split; [| split]]].
  - split.
    + destruct (String.eqb_spec (AccessControl.status g) "active") as [Hact|];
        simpl; [| by case_match].
      destruct (N.ltb_spec (stacks_block_height e)
                  (AccessControl.expiry_block g)); simpl; [| by case_match].
      destruct (AccessControl.max_accesses g) as [m|].
      * destruct (N.ltb_spec (AccessControl.access_count g) m); simpl;
          [| by case_match].
        intros _. repeat split; try done. by intros m' [= <-].
      * intros _. repeat split; done.
    + intros (-> & Hlt & Hb). simpl. apply N.ltb_lt in Hlt as ->. simpl.
      destruct (AccessControl.max_accesses g) as [m|]; [| done].
      specialize (Hb m eq_refl). by apply N.ltb_lt in Hb as ->.
  - intros Hexp.
    assert ((stacks_block_height e <? AccessControl.expiry_block g) = false)
      as -> by (apply N.ltb_ge; lia).
    rewrite !andb_false_r. simpl. by apply N.ltb_lt in Hexp as ->.
  - intros Heq. by rewrite Heq, N.ltb_irrefl, andb_false_r.
  - destruct (String.eqb (AccessControl.status g) "active"); simpl;
      [| by case_match].
    destruct (stacks_block_height e <? AccessControl.expiry_block g); simpl;
      [| by case_match].
    intros _ Hin. by rewrite bool_decide_eq_true_2.
  - intros Hnin. rewrite (bool_decide_eq_false_2 _ Hnin).
    by rewrite andb_false_r.
Qed.

Lemma access_check_outcomes_witness :
  let s := AccessControl.ledger chain_granted in
  AccessControl.has_access (patient_env 610) s (StandardPrincipal "SP3")
    "patient-1" = RErr 101
  /\ AccessControl.has_access (patient_env 611) s (StandardPrincipal "SP3")
       "patient-1" = RErr 102
  /\ AccessControl.has_record_scope_access (patient_env 611) s
       (StandardPrincipal "SP3") "patient-1" "lab-results" = RErr 101
  /\ AccessControl.has_record_scope_access (patient_env 200) s
       (StandardPrincipal "SP3") "patient-1" "imaging" = RErr 101.
Proof.
  intros s.
  destruct (AccessControl.access_grants s
            !! ("patient-1", StandardPrincipal "SP3")) as [g|] eqn:Hg;
    [| vm_compute in Hg; discriminate].
  assert (Hg' := Hg). vm_compute in Hg'. injection Hg' as Hg'.
  destruct (access_check_outcomes (patient_env 610) s
              (StandardPrincipal "SP3") "patient-1" "lab-results" g Hg)
    as (_ & _ & Hedge & _).
  destruct (access_check_outcomes (patient_env 611) s
              (StandardPrincipal "SP3") "patient-1" "lab-results" g Hg)
    as (_ & Hexp & _).
  destruct (access_check_outcomes (patient_env 200) s
              (StandardPrincipal "SP3") "patient-1" "imaging" g Hg)
    as (_ & _ & _ & _ & Hout).
  subst g. split; [| split; [| split]].
  - apply Hedge. reflexivity.
  - apply Hexp. reflexivity.
  - apply Hexp. reflexivity.
  - apply Hout. vm_compute. intros H. inversion H as [|? ? ? H']; inversion H'.
Defined.

Lemma never_active_step (deployer : string) (rev : revision)
    (t : transaction) (c : AccessControl.chain) :
  never_active (AccessControl.registry c) ->
  never_active (AccessControl.registry (apply_tx deployer rev c t)).
Proof.
  intros Hinv q stq.
  destruct (exec_registry_step deployer rev t c)
    as [->|p l ts x a hs _ _ ->|p cr0 cr' _ ->
       |p st0 cr0 ns cr' Hst0 _ _ ->|ty' i ->]; simpl;
    try apply Hinv.
  - destruct (decide (p = q)) as [->|Hne].
    + rewrite lookup_insert_eq. by intros [= <-].
    + rewrite lookup_insert_ne by done. apply Hinv.
  - destruct (decide (p = q)) as [->|Hne].
    + rewrite lookup_insert_eq. intros [= <-]. simpl. by apply (Hinv q).
    + rewrite lookup_insert_ne by done. apply Hinv.
Qed.

(** X21.  No activity of a provider is ever recorded.  In every state
    reached from the empty ledger, whatever the transactions and in both
    revisions, every status record has [access-count] 0 and a
    [last-activity] equal to its [registration-date]: the one function that
    writes these fields, [record-provider-activity], rejects a direct call
    and is never reached from access-control. *)
Theorem provider_activity_is_never_recorded
    (deployer : string) (rev : revision) (ts : list transaction)
    (provider : principal) (st : ProviderVerification.status_info) :
  ProviderVerification.get_provider_status
    (AccessControl.registry (run deployer rev ts AccessControl.empty_chain))
    provider = Some st ->
  ProviderVerification.access_count st = 0
  /\ ProviderVerification.last_activity st
     = ProviderVerification.registration_date st.
Proof.
  assert (forall c, never_active (AccessControl.registry c) ->
                    never_active (AccessControl.registry
                                    (run deployer rev ts c))) as Hrun.
  { induction ts as [|t ts IH]; intros c Hc; [done |].
    rewrite run_cons. apply IH. by apply never_active_step. }
  apply Hrun. intros p st0. simpl. by rewrite lookup_empty.
Qed.

Lemma provider_activity_is_never_recorded_witness :
  exists st,
    ProviderVerification.get_provider_status
      (AccessControl.registry
         (run "SP1" Latest (setup_txs ++ later_txs) AccessControl.empty_chain))
      (StandardPrincipal "SP3") = Some st
    /\ ProviderVerification.access_count st = 0
    /\ ProviderVerification.last_activity st = 100.
Proof.
  eexists. split; [vm_compute; reflexivity |].
  destruct (provider_activity_is_never_recorded "SP1" Latest
              (setup_txs ++ later_txs) (StandardPrincipal "SP3")
              (ProviderVerification.mkStatusInfo 100 100 0 "active"
                 (StandardPrincipal "SP1"))) as [Hcount Hlast].
  - vm_compute. reflexivity.
  - split; [exact Hcount | exact Hlast].
Defined.

(** X22.  [revoke-access] has no caller check and is idempotent: its result
    does not depend on who signs or at what height; on a pair without a grant
    it returns [(err u103)]; on an existing grant it succeeds, changes the
    status only, and a second revocation succeeds again and changes
    nothing. *)
Theorem revoke_access_is_open_and_idempotent
    (e e' : env) (provider : principal) (patient_bns : string)
    (c : AccessControl.chain) :
  AccessControl.revoke_access e provider patient_bns c
  = AccessControl.revoke_access e' provider patient_bns c
  /\ (AccessControl.access_grants (AccessControl.ledger c)
      !! (patient_bns, provider) = None ->
      AccessControl.revoke_access e provider patient_bns c
      = (Val (RErr AccessControl.ERR_GRANT_NOT_FOUND), c))
  /\ (forall g,
        AccessControl.access_grants (AccessControl.ledger c)
        !! (patient_bns, provider) = Some g ->
        exists c1,
          AccessControl.revoke_access e provider patient_bns c
          = (Val (ROk true), c1)
          /\ AccessControl.get_access_grant (AccessControl.ledger c1)
               provider patient_bns
             = Some (AccessControl.mkGrant (AccessControl.expiry_block g)
                       (AccessControl.record_scope g)
                       (AccessControl.granted_at g)
                       (AccessControl.granted_by g) "revoked"
                       (AccessControl.max_accesses g)
                       (AccessControl.access_count g)
                       (AccessControl.last_accessed g))
          /\ AccessControl.revoke_access e' provider patient_bns c1
             = (Val (ROk true), c1)).
Proof.
  rewrite !revoke_access_effect. split; [done |]. split.
  - by intros ->.
  - intros g ->. eexists. split; [reflexivity |].
    unfold AccessControl.get_access_grant. simpl. rewrite lookup_insert_eq.
    split; [done |].
    rewrite revoke_access_effect. simpl. rewrite lookup_insert_eq.
    unfold with_grant, revoked. simpl. by rewrite insert_insert_eq.
Qed.

Lemma revoke_access_is_open_and_idempotent_witness :
  AccessControl.revoke_access (provider_env 115) (StandardPrincipal "SP3")
    "patient-7" chain_granted
  = (Val (RErr 103), chain_granted)
  /\ exists c1,
       AccessControl.revoke_access (provider_env 115)
         (StandardPrincipal "SP3") "patient-1" chain_granted
       = (Val (ROk true), c1)
       /\ AccessControl.revoke_access (patient_env 300)
            (StandardPrincipal "SP3") "patient-1" c1
          = (Val (ROk true), c1).
Proof.
  split.
  - apply (revoke_access_is_open_and_idempotent (provider_env 115)
             (provider_env 115) (StandardPrincipal "SP3") "patient-7"
             chain_granted).
    vm_compute. reflexivity.
  - destruct (revoke_access_is_open_and_idempotent (provider_env 115)
                (patient_env 300) (StandardPrincipal "SP3") "patient-1"
                chain_granted) as (_ & _ & Hsome).
    destruct (AccessControl.access_grants (AccessControl.ledger chain_granted)
              !! ("patient-1", StandardPrincipal "SP3")) as [g|] eqn:Hg;
      [| vm_compute in Hg; discriminate].
    destruct (Hsome g eq_refl) as (c1 & H1 & _ & H2). eauto.
Defined.

